(** * The API access layer of the KB front end

    A shallow embedding of [services/api.ts] (the axios instance with its
    request/response interceptors, [ApiService.batch], [ApiService.retry],
    [RequestCache], [cachedApiService]) and of [services/auth.ts]
    ([AuthService], [AuthStateManager]), followed by the properties the
    specification states about them.

    Conventions of the embedding:
    - JavaScript values are the inductive [JsVal]; [truthy], [js_or] and
      [opt_get] are [!!v], [a || b] and [v?.k];
    - [localStorage] is a [gmap string string]; the module-level
      [requestCache] is a [gmap string CacheItem];
    - [Date.now()] is an explicit argument ([now : Z], milliseconds);
    - an [await] is a point where the environment delivers an event: a
      promise is modelled by its settled outcome, and an async function by
      the code before and after each [await]. *)

From stdpp Require Import gmap strings list fin_maps pretty.
From Stdlib Require Import ZArith Lia.
From Equations Require Import Equations.

(* ===================================================================== *)
(** * Part I: the embedding                                               *)
(* ===================================================================== *)

(** ** JavaScript values *)

#[warnings="-register-all"]
Inductive JsVal : Type :=
| JUndefined
| JNull
| JBool (b : bool)
| JNum (n : Z)
| JStr (s : string)
| JObj (fields : list (string * JsVal)).

(** [!!v] *)
Definition truthy (v : JsVal) : bool :=
  match v with
  | JUndefined | JNull => false
  | JBool b => b
  | JNum n => negb (n =? 0)%Z
  | JStr s => negb (String.eqb s "")
  | JObj _ => true
  end.

(** [a || b] *)
Definition js_or (a b : JsVal) : JsVal := if truthy a then a else b.

Fixpoint assoc (k : string) (fields : list (string * JsVal)) : JsVal :=
  match fields with
  | [] => JUndefined
  | (k', v) :: rest => if String.eqb k k' then v else assoc k rest
  end.

(** [v?.k]: [undefined] on [undefined]/[null]; on the other primitives the
    keys read by this code ([message], [code], [details], [access]) are
    not defined, so the plain [v.k] gives [undefined] as well. *)
Definition opt_get (v : JsVal) (k : string) : JsVal :=
  match v with
  | JObj fields => assoc k fields
  | _ => JUndefined
  end.

(** [v === undefined || v === null]: reading a property of such a value, or
    destructuring it, throws a [TypeError]. *)
Definition nullish (v : JsVal) : bool :=
  match v with
  | JUndefined | JNull => true
  | _ => false
  end.

Definition Z_to_string (n : Z) : string := pretty n.

(** [String(v)], as [localStorage.setItem] and template literals apply it. *)
Definition js_to_string (v : JsVal) : string :=
  match v with
  | JUndefined => "undefined"
  | JNull => "null"
  | JBool true => "true"
  | JBool false => "false"
  | JNum n => Z_to_string n
  | JStr s => s
  | JObj _ => "[object Object]"
  end.

(** The settled state of a promise. *)
Inductive Settled : Type :=
| Fulfilled (value : JsVal)
| RejectedWith (reason : JsVal).

(** ** [config.ts]: the storage keys *)

Module storageKeys.
Definition accessToken : string := "kb_access_token".
Definition refreshToken : string := "kb_refresh_token".
Definition user : string := "kb_user".
End storageKeys.

(** ** [localStorage] *)

Abbreviation Storage := (gmap string string).

(** [localStorage.getItem(k)]: [null] when the key is absent. *)
Definition getItem (k : string) (ls : Storage) : JsVal :=
  match ls !! k with
  | Some s => JStr s
  | None => JNull
  end.

Definition setItem (k : string) (v : JsVal) (ls : Storage) : Storage :=
  <[k := js_to_string v]> ls.

Definition removeItem (k : string) (ls : Storage) : Storage := delete k ls.

(** ** [RequestCache] *)

Record CacheItem : Type := mkItem {
  item_data : JsVal;
  item_timestamp : Z;
  item_ttl : Z
}.

Abbreviation Cache := (gmap string CacheItem).

Module RequestCache.

(** [5 * 60 * 1000] *)
Definition default_ttl : Z := 5 * 60 * 1000.

(** [set(key, data, ttl = 5 * 60 * 1000)]; [None] is an [undefined]
    argument, which selects the default. *)
Definition set (now : Z) (key : string) (data : JsVal) (ttl : option Z)
    (cache : Cache) : Cache :=
  <[key := mkItem data now (default default_ttl ttl)]> cache.

(** [get(key)]: the returned value and the cache afterwards. *)
Definition get (now : Z) (key : string) (cache : Cache) : JsVal * Cache :=
  match cache !! key with
  | None => (JNull, cache)
  | Some item =>
      if (now - item_timestamp item >? item_ttl item)%Z
      then (JNull, delete key cache)
      else (item_data item, cache)
  end.

Definition clear (cache : Cache) : Cache := ∅.

Definition delete (key : string) (cache : Cache) : Cache :=
  base.delete key cache.

End RequestCache.

(** ** [cachedApiService.get] *)

(** The two options of the [config] argument this function reads:
    [config?.cache] ([None] when not given) and [config?.ttl]. *)
Record CacheOptions : Type := mkOpts {
  opt_cache : option bool;
  opt_ttl : option Z
}.

(** [config?.cache !== false] *)
Definition cache_enabled (o : CacheOptions) : bool :=
  match opt_cache o with
  | Some false => false
  | _ => true
  end.

(** [`${url}_${JSON.stringify(config?.params || {})}`]; [params] is the
    serialised query object. *)
Definition cacheKey (url params : string) : string := url +:+ "_" +:+ params.

(** What one call of [cachedApiService.get] did. *)
Record GetRun : Type := mkGetRun {
  run_result : Settled;
  run_cache : Cache;
  run_fetched : bool   (* was [apiService.get] called *)
}.

Module cachedApiService.

(** The code before [await apiService.get]: [inl v] is the early return of
    a cached value, [inr tt] means the network call is made. *)
Definition get_lookup (now : Z) (key : string) (o : CacheOptions)
    (cache : Cache) : (JsVal + unit) * Cache :=
  if cache_enabled o then
    let '(cached, cache1) := RequestCache.get now key cache in
    if truthy cached then (inl cached, cache1) else (inr tt, cache1)
  else (inr tt, cache).

(** The code after [await apiService.get], resumed at time [now] with the
    settled network call: a rejection is re-thrown by the [await]. *)
Definition get_resume (now : Z) (key : string) (o : CacheOptions)
    (fetched : Settled) (cache : Cache) : Settled * Cache :=
  match fetched with
  | RejectedWith e => (RejectedWith e, cache)
  | Fulfilled data =>
      (Fulfilled data,
       if cache_enabled o
       then RequestCache.set now key data (opt_ttl o) cache
       else cache)
  end.

(** One whole call with nothing else touching the cache in between:
    lookup at [now1], network call settling as [fetched], resumption at
    [now2]. *)
Definition get (now1 now2 : Z) (key : string) (o : CacheOptions)
    (fetched : Settled) (cache : Cache) : GetRun :=
  match get_lookup now1 key o cache with
  | (inl cached, cache1) => mkGetRun (Fulfilled cached) cache1 false
  | (inr _, cache1) =>
      let '(r, cache2) := get_resume now2 key o fetched cache1 in
      mkGetRun r cache2 true
  end.

Definition clearCache (cache : Cache) : Cache := RequestCache.clear cache.

Definition deleteCache (url params : string) (cache : Cache) : Cache :=
  RequestCache.delete (cacheKey url params) cache.

End cachedApiService.

(** ** The axios instance of [createApiInstance] *)

(** The request configuration: the fields this code reads or writes.
    [cfg_retry] is the custom [_retry] property, absent (falsy) on a
    configuration built by a caller. The [X-Request-ID] header and the
    development-mode [console.log] calls are read by nothing here and are
    left out. *)
Record RequestConfig : Type := mkConfig {
  cfg_url : string;
  cfg_retry : bool;
  cfg_Authorization : option string
}.

Record AxiosResponse : Type := mkResponse {
  resp_status : Z;
  resp_data : JsVal
}.

(** An error as axios rejects with it: [error.message], [error.code] and
    [error.response] ([None] for a failure below HTTP: network unreachable,
    timeout, an exception of a request interceptor). [error.config] is the
    configuration of the request the error belongs to, which the handler
    below receives as its [cfg] argument. *)
Record AxiosError : Type := mkError {
  err_message : JsVal;
  err_code : JsVal;
  err_response : option AxiosResponse
}.

(** How a dispatched call settles. *)
Inductive Outcome : Type :=
| Ok (response : AxiosResponse)
| Err (error : AxiosError).

(** [error.response?.data] *)
Definition response_data (error : AxiosError) : JsVal :=
  match err_response error with
  | Some r => resp_data r
  | None => JUndefined
  end.

(** [error.response?.status === 401] *)
Definition is_401 (error : AxiosError) : bool :=
  match err_response error with
  | Some r => (resp_status r =? 401)%Z
  | None => false
  end.

(** The [apiError] object literal of the response interceptor. The last
    default of [message] is the literal of the source, "request failed" in
    Chinese. *)
Definition apiError (error : AxiosError) : JsVal :=
  JObj
    [ ("message",
       js_or (js_or (opt_get (response_data error) "message")
                    (err_message error))
             (JStr "请求失败"));
      ("code", js_or (opt_get (response_data error) "code") (err_code error));
      ("details",
       js_or (opt_get (response_data error) "details") (response_data error))
    ].

(** A network call made by the client. *)
Inductive NetCall : Type :=
| NetRequest (id : nat) (cfg : RequestConfig)   (* a dispatch of request [id] *)
| NetRefresh (id : nat) (refresh : string).     (* [axios.post] to the refresh
                                                   endpoint, made for [id] *)

(** Everything the interceptors read or write outside the request itself. *)
Record World : Type := mkWorld {
  localStorage : Storage;
  requestCache : Cache;
  network : list NetCall;           (* calls made so far, oldest first *)
  location_href : option string;    (* [Some] once [window.location.href]
                                       was assigned *)
  console_error : list JsVal        (* arguments of [console.error] *)
}.

Definition with_storage (f : Storage → Storage) (w : World) : World :=
  mkWorld (f (localStorage w)) (requestCache w) (network w)
          (location_href w) (console_error w).

Definition send (c : NetCall) (w : World) : World :=
  mkWorld (localStorage w) (requestCache w) (network w ++ [c])
          (location_href w) (console_error w).

Definition redirect (href : string) (w : World) : World :=
  mkWorld (localStorage w) (requestCache w) (network w)
          (Some href) (console_error w).

Definition log_error (v : JsVal) (w : World) : World :=
  mkWorld (localStorage w) (requestCache w) (network w)
          (location_href w) (console_error w ++ [v]).

(** Where one request stands. The promise a caller holds for it is pending
    in the first two states. *)
Inductive Task : Type :=
| Sent (cfg : RequestConfig)                         (* dispatched *)
| Refreshing (cfg : RequestConfig) (error : AxiosError)
                                    (* suspended at [await axios.post] *)
| Resolved (response : AxiosResponse)
| Rejected (reason : JsVal).

(** The request interceptor. *)
Definition request_interceptor (w : World) (cfg : RequestConfig)
    : RequestConfig :=
  let token := getItem storageKeys.accessToken (localStorage w) in
  if truthy token
  then mkConfig (cfg_url cfg) (cfg_retry cfg)
                (Some ("Bearer " +:+ js_to_string token))
  else cfg.

(** [instance(config)]: the request interceptor, then the dispatch. *)
Definition instance (id : nat) (cfg : RequestConfig) (w : World)
    : World * Task :=
  let cfg' := request_interceptor w cfg in
  (send (NetRequest id cfg') w, Sent cfg').

(** The tail of the response error handler: build [apiError], log it,
    reject with it. *)
Definition reject_normalized (error : AxiosError) (w : World)
    : World * Task :=
  (log_error (apiError error) w, Rejected (apiError error)).

(** The response error handler up to its [await]. *)
Definition response_rejected (id : nat) (cfg : RequestConfig)
    (error : AxiosError) (w : World) : World * Task :=
  if is_401 error && negb (cfg_retry cfg) then
    let originalRequest := mkConfig (cfg_url cfg) true (cfg_Authorization cfg) in
    let refreshToken := getItem storageKeys.refreshToken (localStorage w) in
    if truthy refreshToken
    then (send (NetRefresh id (js_to_string refreshToken)) w,
          Refreshing originalRequest error)
    else reject_normalized error w
  else reject_normalized error w.

(** The [catch (refreshError)] block, followed by the tail of the handler. *)
Definition refresh_catch (error : AxiosError) (w : World) : World * Task :=
  let w1 :=
    with_storage
      (fun ls => removeItem storageKeys.user
                   (removeItem storageKeys.refreshToken
                      (removeItem storageKeys.accessToken ls))) w in
  reject_normalized error (redirect "/auth/login" w1).

(** The response error handler from its [await] on: [settled] is how the
    refresh call settled. Destructuring a [null] or [undefined]
    [response.data] throws inside the [try]. The promise of the replay is
    returned without [await], so its rejection is not caught here. *)
Definition refresh_settled (id : nat) (originalRequest : RequestConfig)
    (error : AxiosError) (settled : Outcome) (w : World) : World * Task :=
  match settled with
  | Ok response =>
      if nullish (resp_data response) then refresh_catch error w
      else
        let access := opt_get (resp_data response) "access" in
        let w1 := with_storage (setItem storageKeys.accessToken access) w in
        instance id
          (mkConfig (cfg_url originalRequest) (cfg_retry originalRequest)
                    (Some ("Bearer " +:+ js_to_string access)))
          w1
  | Err _ => refresh_catch error w
  end.

(** ** The event loop

    A single-threaded loop: each event runs one handler to its next
    [await]. Requests are named by [id]. *)

Inductive Event : Type :=
| Request (id : nat) (url : string)       (* a caller calls the instance *)
| Response (id : nat) (o : Outcome)       (* the dispatched call settles *)
| RefreshResponse (id : nat) (o : Outcome).  (* the refresh call settles *)

Record State : Type := mkState {
  world : World;
  tasks : gmap nat Task
}.

Definition put (id : nat) (r : World * Task) (s : State) : State :=
  mkState (fst r) (<[id := snd r]> (tasks s)).

(** An event that no task is waiting for is not delivered: the state is
    left as it is. *)
Definition step (s : State) (e : Event) : State :=
  match e with
  | Request id url =>
      match tasks s !! id with
      | None => put id (instance id (mkConfig url false None) (world s)) s
      | Some _ => s
      end
  | Response id o =>
      match tasks s !! id with
      | Some (Sent cfg) =>
          match o with
          | Ok response => put id (world s, Resolved response) s
          | Err error => put id (response_rejected id cfg error (world s)) s
          end
      | _ => s
      end
  | RefreshResponse id o =>
      match tasks s !! id with
      | Some (Refreshing cfg error) =>
          put id (refresh_settled id cfg error o (world s)) s
      | _ => s
      end
  end.

Definition run (s : State) (events : list Event) : State :=
  fold_left step events s.

(** A page with the given storage and cache, before any request. *)
Definition start (ls : Storage) (cache : Cache) : State :=
  mkState (mkWorld ls cache [] None []) ∅.

Definition is_refresh_of (id : nat) (c : NetCall) : bool :=
  match c with
  | NetRefresh id' _ => Nat.eqb id id'
  | NetRequest _ _ => false
  end.

Definition is_request_of (id : nat) (c : NetCall) : bool :=
  match c with
  | NetRequest id' _ => Nat.eqb id id'
  | NetRefresh _ _ => false
  end.

Definition is_refresh (c : NetCall) : bool :=
  match c with
  | NetRefresh _ _ => true
  | NetRequest _ _ => false
  end.

Definition count (p : NetCall → bool) (calls : list NetCall) : nat :=
  length (List.filter p calls).

(** ** [ApiService.retry] and [ApiService.batch] *)

Record RetryRun : Type := mkRetryRun {
  retry_result : Settled;     (* the returned value or the thrown error *)
  retry_calls : nat;          (* invocations of [request] *)
  retry_delays : list Z       (* the [setTimeout] delays, in order *)
}.

(** What calling an operation, [request()], gives: it throws before it
    returns, or it returns a promise. [settle] is the rest of the
    operation, which runs when the promise settles, on the state shared
    with the other operations as it is at that moment. *)
Inductive Started (St : Type) : Type :=
| Threw (error : JsVal)
| Promised (settle : St → Settled * St).
Arguments Threw {St}.
Arguments Promised {St}.

Record BatchRun (St : Type) : Type := mkBatchRun {
  batch_result : option (list JsVal + JsVal);
                      (* the array, or the thrown reason; [None] while
                         [Promise.allSettled] is pending *)
  batch_logged : list (nat * JsVal);      (* [console.error] calls: index, reason *)
  batch_settled : option (list Settled);  (* what [Promise.allSettled] gave *)
  batch_started : nat;                    (* operations called *)
  batch_state : St
}.
Arguments mkBatchRun {St}.
Arguments batch_result {St}.
Arguments batch_logged {St}.
Arguments batch_settled {St}.
Arguments batch_started {St}.
Arguments batch_state {St}.

Module ApiService.

Section retry.

(** [request k] is how the invocation number [k] (from 0) of the operation
    settles. *)
Variable request : nat → Settled.
Variables maxRetries delay : Z.

(** The [for] loop at index [i], with the invocations and delays so far.
    [Math.pow(2, i)] is [2 ^ i] on the indices the loop reaches. *)
Equations retry_loop (i : Z) (lastError : JsVal) (calls : nat)
    (delays : list Z) : RetryRun
    by wf (Z.to_nat (maxRetries + 1 - i)) lt :=
retry_loop i lastError calls delays with decide (i ≤ maxRetries)%Z := {
  | right _ => mkRetryRun (RejectedWith lastError) calls delays
  | left _ with request calls := {
    | Fulfilled value => mkRetryRun (Fulfilled value) (S calls) delays
    | RejectedWith error =>
        retry_loop (i + 1) error (S calls)
          (if decide (i < maxRetries)%Z
           then delays ++ [(delay * 2 ^ i)%Z]
           else delays)
    }
  }.
Next Obligation. lia. Qed.

(** [lastError] starts [undefined]. *)
Definition retry_with : RetryRun := retry_loop 0 JUndefined 0 [].

End retry.

(** [retry(request, maxRetries = 3, delay = 1000)] *)
Definition retry (request : nat → Settled) (maxRetries delay : option Z)
    : RetryRun :=
  retry_with request (default 3%Z maxRetries) (default 1000%Z delay).

Section batch.

(** An operation acts on whatever it shares with the others (the server,
    the page): [St] is that shared state. Calling it runs it up to its
    first [await]; the promise it returns settles later. *)
Context {St : Type}.

Definition Operation : Type := St → Started St * St.

(** [requests.map((request) => request())]: the operations are called in
    array order, each before any promise settles. A call that throws ends
    the [map]: the operations after it are not called. The result is the
    promises returned so far, the error thrown if any, and the state. *)
Fixpoint call_all (requests : list Operation) (st : St)
    : list (St → Settled * St) * option JsVal * St :=
  match requests with
  | [] => ([], None, st)
  | request :: rest =>
      match request st with
      | (Threw error, st1) => ([], Some error, st1)
      | (Promised promise, st1) =>
          let '(promises, thrown, st2) := call_all rest st1 in
          (promise :: promises, thrown, st2)
      end
  end.

(** The promise of index [i] settles: its result is recorded at its
    index. A promise settles once. *)
Definition settle_one (promises : list (St → Settled * St))
    (acc : list (option Settled) * St) (i : nat)
    : list (option Settled) * St :=
  match promises !! i, acc.1 !! i with
  | Some promise, Some None =>
      let '(x, st') := promise acc.2 in (<[i := Some x]> acc.1, st')
  | _, _ => acc
  end.

(** The results once every promise has settled. *)
Fixpoint all_settled (results : list (option Settled))
    : option (list Settled) :=
  match results with
  | [] => Some []
  | Some x :: rest =>
      match all_settled rest with
      | Some xs => Some (x :: xs)
      | None => None
      end
  | None :: _ => None
  end.

(** [Promise.allSettled(promises)], the promises settling in the order
    [schedule] (a list of indices), which the environment chooses: the
    results in array order, or [None] when some promise has not settled. *)
Definition allSettled (promises : list (St → Settled * St))
    (schedule : list nat)
    (st : St) : option (list Settled) * St :=
  let '(results, st') :=
    fold_left (settle_one promises) schedule
      (replicate (length promises) None, st) in
  (all_settled results, st').

(** [results.map((result, index) => ...)]: a [throw] in the callback ends
    the [map]. *)
Fixpoint map_results (index : nat) (results : list Settled)
    : (list JsVal + JsVal) * list (nat * JsVal) :=
  match results with
  | [] => (inl [], [])
  | Fulfilled value :: rest =>
      match map_results (S index) rest with
      | (inl values, logged) => (inl (value :: values), logged)
      | (inr reason, logged) => (inr reason, logged)
      end
  | RejectedWith reason :: _ => (inr reason, [(index, reason)])
  end.

(** [batch(requests)]. A throw of [request()] inside the [async] function
    rejects the promise of [batch]. *)
Definition batch (requests : list Operation) (schedule : list nat) (st : St)
    : BatchRun St :=
  match call_all requests st with
  | (promises, Some error, st1) =>
      mkBatchRun (Some (inr error)) [] None (S (length promises)) st1
  | (promises, None, st1) =>
      match allSettled promises schedule st1 with
      | (Some results, st2) =>
          let '(r, logged) := map_results 0 results in
          mkBatchRun (Some r) logged (Some results) (length promises) st2
      | (None, st2) => mkBatchRun None [] None (length promises) st2
      end
  end.

End batch.

End ApiService.

(** ** [AuthService] and [AuthStateManager] *)

(** What one call of [logout] did. *)
Record LogoutRun : Type := mkLogoutRun {
  logout_posted : option string;   (* the refresh token sent to the server *)
  logout_result : Settled;
  logout_storage : Storage
}.

Module AuthService.

(** [!!(token && user)] *)
Definition isAuthenticated (ls : Storage) : bool :=
  truthy (getItem storageKeys.accessToken ls)
  && truthy (getItem storageKeys.user ls).

Definition clearLocalStorage (ls : Storage) : Storage :=
  removeItem storageKeys.user
    (removeItem storageKeys.refreshToken
       (removeItem storageKeys.accessToken ls)).

Section getLocalUser.

(** [JSON.parse]; [None] when it throws. *)
Variable JSON_parse : string → option JsVal.

Definition getLocalUser (ls : Storage) : JsVal :=
  let userStr := getItem storageKeys.user ls in
  if truthy userStr then
    match JSON_parse (js_to_string userStr) with
    | Some u => u
    | None => JNull
    end
  else JNull.

End getLocalUser.

(** [new Error(message)] *)
Definition Error (message : string) : JsVal :=
  JObj [("name", JStr "Error"); ("message", JStr message)].

Definition TypeError : JsVal :=
  JObj [("name", JStr "TypeError")].

(** [refreshToken] up to its [await]: [inl e] throws [e], [inr refresh]
    posts [{refresh}] to the refresh endpoint through [apiService.post]. *)
Definition refreshToken_start (ls : Storage) : JsVal + string :=
  let refreshToken := getItem storageKeys.refreshToken ls in
  if truthy refreshToken then inr (js_to_string refreshToken)
  else inl (Error "No refresh token available").

(** [refreshToken] from its [await] on: [posted] is how [apiService.post]
    settled ([response] is the body), [ls] the storage at that moment. *)
Definition refreshToken_resume (posted : Settled) (ls : Storage)
    : Settled * Storage :=
  match posted with
  | RejectedWith e => (RejectedWith e, ls)
  | Fulfilled response =>
      if nullish response then (RejectedWith TypeError, ls)
      else
        let access := opt_get response "access" in
        (Fulfilled access, setItem storageKeys.accessToken access ls)
  end.

(** [autoRefreshToken] from [await this.refreshToken()] on: [refreshed] is
    how that call settled, [ls] the storage at that moment. The result is
    the storage and the route the page is sent to, if any. *)
Definition autoRefreshToken_settled (refreshed : Settled) (ls : Storage)
    : Storage * option string :=
  match refreshed with
  | Fulfilled _ => (ls, None)
  | RejectedWith _ => (clearLocalStorage ls, Some "/auth/login")
  end.

(** One whole call of [autoRefreshToken]. [isTokenExpiringSoon()] decodes
    the stored token against the clock; its answer is [expiringSoon].
    [posted] is how the post of [refreshToken] settled and [ls1] the
    storage at that moment. *)
Definition autoRefreshToken (expiringSoon : bool) (ls : Storage)
    (posted : Settled) (ls1 : Storage) : Storage * option string :=
  if expiringSoon then
    match refreshToken_start ls with
    | inl e => autoRefreshToken_settled (RejectedWith e) ls
    | inr _ =>
        let '(refreshed, ls2) := refreshToken_resume posted ls1 in
        autoRefreshToken_settled refreshed ls2
    end
  else (ls, None).

Definition getAccessToken (ls : Storage) : JsVal :=
  getItem storageKeys.accessToken ls.

Definition getRefreshToken (ls : Storage) : JsVal :=
  getItem storageKeys.refreshToken ls.

Section login.

(** [JSON.stringify]: a string, or [undefined]. *)
Variable JSON_stringify : JsVal → JsVal.

(** [login] (and [loginWithTwoFactor], which has the same body) from its
    [await apiService.post] on: [posted] is how the post settled
    ([response] is the body), [ls] the storage at that moment. Reading
    [response.access] of a [null] or [undefined] body throws. *)
Definition login_resume (posted : Settled) (ls : Storage)
    : Settled * Storage :=
  match posted with
  | RejectedWith e => (RejectedWith e, ls)
  | Fulfilled response =>
      if nullish response then (RejectedWith TypeError, ls)
      else if truthy (opt_get response "access") then
        (Fulfilled response,
         setItem storageKeys.user (JSON_stringify (opt_get response "user"))
           (setItem storageKeys.refreshToken (opt_get response "refresh")
              (setItem storageKeys.accessToken (opt_get response "access")
                 ls)))
      else (Fulfilled response, ls)
  end.

End login.

(** One whole call of [logout]: [posted] is how the post to the logout
    endpoint settled and [ls1] the storage at that moment, both unused
    when no post is made. A rejection is caught and logged; the [finally]
    block clears the storage on every path. *)
Definition logout (ls : Storage) (posted : Settled) (ls1 : Storage)
    : LogoutRun :=
  let refreshToken := getItem storageKeys.refreshToken ls in
  if truthy refreshToken
  then mkLogoutRun (Some (js_to_string refreshToken)) (Fulfilled JUndefined)
         (clearLocalStorage ls1)
  else mkLogoutRun None (Fulfilled JUndefined) (clearLocalStorage ls).

Section hasPermission.

Variable JSON_parse : string → option JsVal.

(** [hasPermission(permission, userPermissions?)]; [None] is an omitted
    list. An array is truthy even when empty. *)
Definition hasPermission (permission : string)
    (userPermissions : option (list string)) (ls : Storage) : bool :=
  let user := getLocalUser JSON_parse ls in
  if negb (truthy user) then false
  else if truthy (opt_get user "is_staff") then true
  else match userPermissions with
       | Some permissions => bool_decide (permission ∈ permissions)
       | None => false
       end.

End hasPermission.

End AuthService.

Module AuthStateManager.

(** A listener, by whether its call with the given arguments throws. *)
Definition Listener : Type := bool → JsVal → bool.

Record Notification : Type := mkNotification {
  calls : list (bool * JsVal);   (* the arguments of each call, in order *)
  caught : nat                   (* exceptions caught and logged *)
}.

Section notifyStateChange.

Variable JSON_parse : string → option JsVal.

Fixpoint forEach (listeners : list Listener) (isAuthenticated : bool)
    (user : JsVal) : Notification :=
  match listeners with
  | [] => mkNotification [] 0
  | listener :: rest =>
      let n := forEach rest isAuthenticated user in
      mkNotification ((isAuthenticated, user) :: calls n)
        ((if listener isAuthenticated user then 1 else 0) + caught n)
  end.

Definition notifyStateChange (listeners : list Listener) (ls : Storage)
    : Notification :=
  forEach listeners (AuthService.isAuthenticated ls)
          (AuthService.getLocalUser JSON_parse ls).

End notifyStateChange.

Section listeners.

(** The registered callbacks as references: [A] is any type whose equality
    is the identity of the callback ([===]). *)
Context {A : Type} `{EqDecision A}.

(** [listeners.push(listener)] *)
Definition addListener (listener : A) (listeners : list A) : list A :=
  listeners ++ [listener].

(** [listeners.indexOf(listener)], counting from [from]; [-1] when the
    listener is not in the array. *)
Fixpoint indexOf_from (from : nat) (listener : A) (listeners : list A) : Z :=
  match listeners with
  | [] => (-1)%Z
  | l :: rest =>
      if decide (l = listener) then Z.of_nat from
      else indexOf_from (S from) listener rest
  end.

Definition indexOf (listener : A) (listeners : list A) : Z :=
  indexOf_from 0 listener listeners.

(** [removeListener]: [splice(index, 1)] when [index > -1]. *)
Definition removeListener (listener : A) (listeners : list A) : list A :=
  let index := indexOf listener listeners in
  if (index >? -1)%Z then delete (Z.to_nat index) listeners
  else listeners.

End listeners.

Section registrations.

(** [notifyStateChange] with callbacks that may register and unregister
    while they are notified. The callbacks are references ([A], with the
    identity of the callback as equality), and [call listener
    isAuthenticated user listeners] is what calling one does: the
    registered list it leaves, and whether it throws. *)
Context {A : Type}.
Variable call : A → bool → JsVal → list A → list A * bool.

(** What one notification did. *)
Record Notified : Type := mkNotified {
  called : list A;        (* the callbacks called, in the order of the calls *)
  thrown : nat;           (* exceptions caught and logged *)
  registered : list A     (* the registered list afterwards *)
}.

(** [this.listeners.forEach(...)] from index [k], with [n] indices left.
    The indices visited are those of the array as it was when [forEach]
    was called; an index the array no longer has is skipped, and an index
    it has is read when it is visited. *)
Fixpoint forEach_from (n k : nat) (listeners : list A)
    (isAuthenticated : bool) (user : JsVal) : Notified :=
  match n with
  | 0 => mkNotified [] 0 listeners
  | S n' =>
      match listeners !! k with
      | Some listener =>
          let '(listeners', threw) :=
            call listener isAuthenticated user listeners in
          let r := forEach_from n' (S k) listeners' isAuthenticated user in
          mkNotified (listener :: called r)
            ((if threw then 1 else 0) + thrown r) (registered r)
      | None => forEach_from n' (S k) listeners isAuthenticated user
      end
  end.

Variable JSON_parse : string → option JsVal.

Definition notifyStateChange_of (listeners : list A) (ls : Storage)
    : Notified :=
  forEach_from (length listeners) 0 listeners
    (AuthService.isAuthenticated ls)
    (AuthService.getLocalUser JSON_parse ls).

End registrations.

End AuthStateManager.

(** ** [useAuth]: the initialisation of the hook *)

(** The three pieces of state the hook exposes. *)
Record AuthView : Type := mkAuthView {
  view_user : JsVal;
  view_isAuthenticated : bool;
  view_isLoading : bool
}.

Module useAuth.

Section initializeAuth.

Variable JSON_parse : string → option JsVal.

(** One whole run of [initializeAuth], by the state it leaves: [current]
    is how [authService.getCurrentUser()] settled and [ls1] the storage at
    that moment, both unused when the call is not made. The second
    component tells whether the call was made. *)
Definition initializeAuth (ls : Storage) (current : Settled) (ls1 : Storage)
    : AuthView * bool * Storage :=
  let localUser := AuthService.getLocalUser JSON_parse ls in
  let hasToken := AuthService.isAuthenticated ls in
  if hasToken && truthy localUser then
    match current with
    | Fulfilled currentUser => (mkAuthView currentUser true false, true, ls1)
    | RejectedWith _ =>
        (mkAuthView JNull false false, true,
         AuthService.clearLocalStorage ls1)
    end
  else (mkAuthView JNull false false, false, ls).

End initializeAuth.

End useAuth.

(** ** Observations

    What the properties below are stated with: counts over the network
    log, the transitions of [step] as a relation, and a few predicates on
    values and events. *)

Definition is_rejected (s : Settled) : bool :=
  match s with
  | RejectedWith _ => true
  | Fulfilled _ => false
  end.

(** The delay before attempt [i + j + 1]. *)
Definition backoff (delay i : Z) (j : nat) : Z :=
  (delay * 2 ^ (i + Z.of_nat j))%Z.

(** The refresh call failed: it was rejected, or its body cannot be
    destructured. *)
Definition refresh_failed (o : Outcome) : bool :=
  match o with
  | Ok response => nullish (resp_data response)
  | Err _ => true
  end.

(** The request as the handler replays it. *)
Definition retried (cfg : RequestConfig) : RequestConfig :=
  mkConfig (cfg_url cfg) true (cfg_Authorization cfg).

(** The transitions of [step], one constructor per path through the
    handlers. *)
Inductive delivers (s : State) : Event → State → Prop :=
| D_request id url :
    tasks s !! id = None →
    delivers s (Request id url)
      (put id (instance id (mkConfig url false None) (world s)) s)
| D_resolved id cfg response :
    tasks s !! id = Some (Sent cfg) →
    delivers s (Response id (Ok response))
      (put id (world s, Resolved response) s)
| D_refresh id cfg error :
    tasks s !! id = Some (Sent cfg) →
    is_401 error = true → cfg_retry cfg = false →
    truthy (getItem storageKeys.refreshToken (localStorage (world s))) = true →
    delivers s (Response id (Err error))
      (put id
         (send (NetRefresh id
                  (js_to_string
                     (getItem storageKeys.refreshToken
                        (localStorage (world s)))))
               (world s),
          Refreshing (retried cfg) error) s)
| D_rejected id cfg error :
    tasks s !! id = Some (Sent cfg) →
    is_401 error && negb (cfg_retry cfg)
      && truthy (getItem storageKeys.refreshToken (localStorage (world s)))
    = false →
    delivers s (Response id (Err error))
      (put id (reject_normalized error (world s)) s)
| D_replayed id cfg error response :
    tasks s !! id = Some (Refreshing cfg error) →
    nullish (resp_data response) = false →
    delivers s (RefreshResponse id (Ok response))
      (put id
         (instance id
            (mkConfig (cfg_url cfg) (cfg_retry cfg)
               (Some ("Bearer "
                      +:+ js_to_string (opt_get (resp_data response) "access"))))
            (with_storage
               (setItem storageKeys.accessToken
                  (opt_get (resp_data response) "access"))
               (world s)))
         s)
| D_logged_out id cfg error o :
    tasks s !! id = Some (Refreshing cfg error) →
    refresh_failed o = true →
    delivers s (RefreshResponse id o)
      (put id (refresh_catch error (world s)) s).

Definition requests_of (id : nat) (s : State) : nat :=
  count (is_request_of id) (network (world s)).

Definition refreshes_of (id : nat) (s : State) : nat :=
  count (is_refresh_of id) (network (world s)).

(** What the network log holds for request [id], by where the request
    stands. *)
Definition accounted (id : nat) (s : State) : Prop :=
  match tasks s !! id with
  | None => requests_of id s = 0 ∧ refreshes_of id s = 0
  | Some (Sent cfg) =>
      if cfg_retry cfg
      then requests_of id s = 2 ∧ refreshes_of id s = 1
      else requests_of id s = 1 ∧ refreshes_of id s = 0
  | Some (Refreshing cfg _) =>
      cfg_retry cfg = true ∧ requests_of id s = 1 ∧ refreshes_of id s = 1
  | Some (Resolved _) | Some (Rejected _) =>
      requests_of id s ≤ 2 ∧ refreshes_of id s ≤ 1
  end.

Definition event_id (e : Event) : nat :=
  match e with
  | Request id _ | Response id _ | RefreshResponse id _ => id
  end.

Definition is_string (s : string) (v : JsVal) : bool :=
  match v with
  | JStr s' => String.eqb s s'
  | _ => false
  end.

(** The [AuthExpired] of the specification's error taxonomy: an error that
    names this kind in its [code] or its [name]. *)
Definition is_AuthExpired (e : JsVal) : bool :=
  is_string "AuthExpired" (opt_get e "code")
  || is_string "AuthExpired" (opt_get e "name").

(** [Object.keys(v)] *)
Definition keys (v : JsVal) : list string :=
  match v with
  | JObj fields => map fst fields
  | _ => []
  end.

(** Where a rejection comes from: the error is one that a response
    delivered to this request. *)
Definition traced (events : list Event) (s : State) : Prop :=
  ∀ id,
    match tasks s !! id with
    | Some (Rejected reason) =>
        ∃ error, Response id (Err error) ∈ events ∧ reason = apiError error
    | Some (Refreshing _ error) => Response id (Err error) ∈ events
    | _ => True
    end.

(** The shared state after the operations have been called, in order. *)
Definition started_state {St : Type}
    (requests : list (@ApiService.Operation St)) (st : St) : St :=
  fold_left (λ s request, (request s).2) requests st.

(** The shared state after the promises of the indices [schedule] have
    settled, in that order. *)
Definition settled_state {St : Type}
    (promises : list (St → Settled * St)) (schedule : list nat) (st : St)
    : St :=
  fold_left (λ s i, match promises !! i with
                    | Some promise => (promise s).2
                    | None => s
                    end) schedule st.

(** The part of a schedule before index [i] comes up. *)
Fixpoint before (i : nat) (schedule : list nat) : list nat :=
  match schedule with
  | [] => []
  | j :: rest => if decide (j = i) then [] else j :: before i rest
  end.

(** How each promise settles, in array order: the promise of index [i]
    settles on the state left by those scheduled before it. *)
Definition outcomes {St : Type} (promises : list (St → Settled * St))
    (schedule : list nat) (st : St) : list Settled :=
  imap (λ i promise,
          (promise (settled_state promises (before i schedule) st)).1)
       promises.

(** The time slept in all. *)
Definition total_delay (r : RetryRun) : Z := foldr Z.add 0%Z (retry_delays r).

(** One of the three keys the client owns. *)
Definition credential_key (k : string) : bool :=
  String.eqb k storageKeys.accessToken
  || String.eqb k storageKeys.refreshToken
  || String.eqb k storageKeys.user.

(** The request has settled. *)
Definition is_settled (t : option Task) : bool :=
  match t with
  | Some (Resolved _) | Some (Rejected _) => true
  | _ => false
  end.

(** The event is not the failure of a refresh call. *)
Definition refresh_succeeds (e : Event) : bool :=
  match e with
  | RefreshResponse _ o => negb (refresh_failed o)
  | _ => true
  end.

(* ===================================================================== *)
(** * Part II: the properties                                             *)
(* ===================================================================== *)

(** ** The scenarios of the specification, run on the embedding *)

(** A protected GET gets a 401 once, the refresh succeeds, the replay
    succeeds: the caller's promise resolves with the final response, the
    new token is stored, and three calls were made. *)
Example scenario_refresh_then_replay :
  run (start {[ storageKeys.accessToken := "a1";
                storageKeys.refreshToken := "r1" ]} ∅)
    [ Request 0 "/api/v1/documents/";
      Response 0 (Err (mkError (JStr "Request failed with status code 401")
                         (JStr "ERR_BAD_REQUEST")
                         (Some (mkResponse 401 JUndefined))));
      RefreshResponse 0 (Ok (mkResponse 200 (JObj [("access", JStr "a2")])));
      Response 0 (Ok (mkResponse 200 (JStr "payload"))) ]
  = mkState
      (mkWorld
         {[ storageKeys.accessToken := "a2";
            storageKeys.refreshToken := "r1" ]}
         ∅
         [ NetRequest 0 (mkConfig "/api/v1/documents/" false (Some "Bearer a1"));
           NetRefresh 0 "r1";
           NetRequest 0 (mkConfig "/api/v1/documents/" true (Some "Bearer a2")) ]
         None [])
      {[ 0 := Resolved (mkResponse 200 (JStr "payload")) ]}.
Proof. vm_compute. reflexivity. Qed.

(** Two GETs of the same URL and parameters within the ttl: the second is
    served from the cache and makes no network call. *)
Example scenario_second_get_is_cached :
  cachedApiService.get 2000 2001 (cacheKey "/api/v1/tags/" "{}")
    (mkOpts None None) (Fulfilled (JStr "other"))
    (run_cache
       (cachedApiService.get 1000 1100 (cacheKey "/api/v1/tags/" "{}")
          (mkOpts None None) (Fulfilled (JStr "tags")) ∅))
  = mkGetRun (Fulfilled (JStr "tags"))
      {[ cacheKey "/api/v1/tags/" "{}" := mkItem (JStr "tags") 1100 300000 ]}
      false.
Proof. vm_compute. reflexivity. Qed.

(** After [deleteCache] the next lookup of the key misses, whatever the
    ttl of the entry was. *)
Example scenario_invalidated_key_misses :
  RequestCache.get 1001 (cacheKey "/api/v1/tags/" "{}")
    (cachedApiService.deleteCache "/api/v1/tags/" "{}"
       (RequestCache.set 1000 (cacheKey "/api/v1/tags/" "{}") (JStr "tags")
          None ∅))
  = (JNull, ∅).
Proof. vm_compute. reflexivity. Qed.

(** ** The request cache *)

Lemma get_absent now key (cache : Cache) :
  cache !! key = None → RequestCache.get now key cache = (JNull, cache).
Proof. intros H. unfold RequestCache.get. by rewrite H. Qed.

Lemma get_fresh now key (cache : Cache) item :
  cache !! key = Some item →
  (now ≤ item_timestamp item + item_ttl item)%Z →
  RequestCache.get now key cache = (item_data item, cache).
Proof.
  intros H Hle. unfold RequestCache.get. rewrite H.
  destruct (Z.gtb_spec (now - item_timestamp item) (item_ttl item)); [lia | done].
Qed.

Lemma get_expired now key (cache : Cache) item :
  cache !! key = Some item →
  (item_timestamp item + item_ttl item < now)%Z →
  RequestCache.get now key cache = (JNull, delete key cache).
Proof.
  intros H Hlt. unfold RequestCache.get. rewrite H.
  destruct (Z.gtb_spec (now - item_timestamp item) (item_ttl item)); [done | lia].
Qed.

Lemma get_cases now key (cache : Cache) :
  RequestCache.get now key cache = (JNull, delete key cache)
  ∨ ∃ item, cache !! key = Some item
            ∧ RequestCache.get now key cache = (item_data item, cache).
Proof.
  unfold RequestCache.get. destruct (cache !! key) as [item|] eqn:H.
  - destruct (_ >? _)%Z; [by left | right; eauto].
  - left. by rewrite delete_id.
Qed.

(** C3, as the specification words it, fails at the instant
    [storedAt + ttl]: the entry stored at 1000 with a ttl of 100 is not
    "before" its deadline at 1100, and [get] still returns it and keeps
    it. *)
Lemma get_serves_entry_at_its_deadline :
  (1100 <? 1000 + 100)%Z = false
  ∧ RequestCache.get 1100 "k"
      (RequestCache.set 1000 "k" (JStr "v") (Some 100%Z) ∅)
    = (JStr "v", RequestCache.set 1000 "k" (JStr "v") (Some 100%Z) ∅).
Proof. split; reflexivity. Qed.

(** C3 (amended): [get key] returns the stored payload, and leaves the
    cache alone, when an entry is present and [now <= storedAt + ttl];
    otherwise it returns [null] and the entry is gone afterwards. So an
    entry set with ttl [T] at [t0] is returned unchanged at every time of
    [[t0, t0 + T)], and at [t0 + T + eps], [eps > 0], it is evicted and
    [null] is returned. *)
Theorem get_returns_entry_until_deadline (now : Z) (key : string)
    (cache : Cache) :
  (∀ item, cache !! key = Some item →
     (now ≤ item_timestamp item + item_ttl item)%Z →
     RequestCache.get now key cache = (item_data item, cache))
  ∧ (∀ item, cache !! key = Some item →
     (item_timestamp item + item_ttl item < now)%Z →
     RequestCache.get now key cache = (JNull, delete key cache))
  ∧ (cache !! key = None →
     RequestCache.get now key cache = (JNull, delete key cache))
  ∧ (∀ t0 T data,
     (t0 ≤ now < t0 + T)%Z →
     RequestCache.get now key (RequestCache.set t0 key data (Some T) cache)
     = (data, RequestCache.set t0 key data (Some T) cache))
  ∧ (∀ t0 T eps data,
     (0 < eps)%Z → now = (t0 + T + eps)%Z →
     RequestCache.get now key (RequestCache.set t0 key data (Some T) cache)
     = (JNull, delete key cache)).
Proof.
  repeat split.
  - intros item. apply get_fresh.
  - intros item. apply get_expired.
  - intros H. rewrite get_absent by done. by rewrite delete_id.
  - intros t0 T data Ht.
    apply (get_fresh now key _ (mkItem data t0 T)); simpl; [|lia].
    apply lookup_insert_eq.
  - intros t0 T eps data Heps ->. unfold RequestCache.set. simpl.
    rewrite (get_expired _ key _ (mkItem data t0 T)); simpl; [|apply lookup_insert_eq|lia].
    by rewrite delete_insert_eq.
Qed.

Lemma get_returns_entry_until_deadline_witness :
  RequestCache.get 1099 "k"
    (RequestCache.set 1000 "k" (JStr "v") (Some 100%Z) ∅)
  = (JStr "v", RequestCache.set 1000 "k" (JStr "v") (Some 100%Z) ∅)
  ∧ RequestCache.get 1101 "k"
      (RequestCache.set 1000 "k" (JStr "v") (Some 100%Z) ∅)
    = (JNull, delete "k" ∅).
Proof.
  split.
  - destruct (get_returns_entry_until_deadline 1099 "k" ∅)
      as (_ & _ & _ & H & _).
    apply H. lia.
  - destruct (get_returns_entry_until_deadline 1101 "k" ∅)
      as (_ & _ & _ & _ & H).
    apply (H 1000%Z 100%Z 1%Z); lia.
Defined.

(** ** [cachedApiService.get] *)

Lemma get_lookup_cases now key o (cache : Cache) :
  (cachedApiService.get_lookup now key o cache).2 = cache
  ∨ (cache_enabled o = true
     ∧ (∃ item, cache !! key = Some item
                ∧ (item_timestamp item + item_ttl item < now)%Z)
     ∧ cachedApiService.get_lookup now key o cache
       = (inr tt, delete key cache)).
Proof.
  unfold cachedApiService.get_lookup, RequestCache.get.
  destruct (cache_enabled o); [|by left].
  destruct (cache !! key) as [item|] eqn:H; [|by left].
  destruct (Z.gtb_spec (now - item_timestamp item) (item_ttl item)).
  - right. split; [done|]. split; [|done]. exists item. split; [done|lia].
  - left. by destruct (truthy _).
Qed.

(** C10, as the specification words it, fails when the entry of the key
    has expired: the lookup that precedes the network call evicts it, so
    after a failed call the cache is not what it was for that key. *)
Lemma failed_get_evicts_expired_entry :
  ({[ "/docs_{}" := mkItem (JStr "v") 1000 100 ]} : Cache) !! "/docs_{}"
  = Some (mkItem (JStr "v") 1000 100)
  ∧ run_cache
      (cachedApiService.get 2000 2001 "/docs_{}" (mkOpts None None)
         (RejectedWith (JStr "Network Error"))
         {[ "/docs_{}" := mkItem (JStr "v") 1000 100 ]})
    !! "/docs_{}" = None.
Proof. split; reflexivity. Qed.

(** C10 (amended): [cachedApiService.get] never caches a failure. When the
    network call throws, the call throws the same error and writes no
    entry: the cache afterwards is the cache as the lookup left it, which
    is the cache before the call except that an expired entry of the key
    has been evicted. An entry is written only for a payload that the
    network call returned, and only when caching is not disabled; with
    caching disabled the cache is not touched at all. *)
Theorem get_never_caches_a_failure (now1 now2 : Z) (key : string)
    (o : CacheOptions) (cache : Cache) :
  (∀ e, cachedApiService.get_resume now2 key o (RejectedWith e) cache
        = (RejectedWith e, cache))
  ∧ (∀ e r,
     r = cachedApiService.get now1 now2 key o (RejectedWith e) cache →
     run_fetched r = true →
     run_result r = RejectedWith e
     ∧ run_cache r ⊆ cache
     ∧ (run_cache r = cache
        ∨ (∃ item, cache !! key = Some item
                   ∧ (item_timestamp item + item_ttl item < now1)%Z)
          ∧ run_cache r = delete key cache))
  ∧ (∀ fetched item,
     run_cache (cachedApiService.get now1 now2 key o fetched cache) !! key
     = Some item →
     cache !! key ≠ Some item →
     fetched = Fulfilled (item_data item) ∧ cache_enabled o = true)
  ∧ (∀ fetched,
     cache_enabled o = false →
     run_cache (cachedApiService.get now1 now2 key o fetched cache) = cache).
Proof.
  split; [done|]. split; [|split].
  - intros e r -> Hf. unfold cachedApiService.get in *.
    destruct (get_lookup_cases now1 key o cache) as [H | (_ & Hi & H)].
    + destruct (cachedApiService.get_lookup _ _ _ _) as [[?|?] ?];
        simpl in *; subst; [done|]. split; [done|]. split; [done|by left].
    + rewrite H. simpl. split; [done|]. split; [apply delete_subseteq|].
      by right.
  - intros fetched item H Hne. unfold cachedApiService.get in H.
    destruct (get_lookup_cases now1 key o cache) as [Hl | (_ & _ & Hl)].
    + destruct (cachedApiService.get_lookup _ _ _ _) as [[?|?] c1];
        simpl in *; subst c1; [done|].
      destruct fetched as [data|e]; simpl in *; [|done].
      destruct (cache_enabled o); [|done].
      unfold RequestCache.set in H. rewrite lookup_insert_eq in H.
      by inversion H.
    + rewrite Hl in H. destruct fetched as [data|e]; simpl in *.
      * destruct (cache_enabled o); [|by rewrite lookup_delete_eq in H].
        unfold RequestCache.set in H. rewrite lookup_insert_eq in H.
        by inversion H.
      * by rewrite lookup_delete_eq in H.
  - intros fetched He. unfold cachedApiService.get, cachedApiService.get_lookup.
    rewrite He. destruct fetched; simpl; by rewrite ?He.
Qed.

Lemma get_never_caches_a_failure_witness :
  run_result
    (cachedApiService.get 1050 1060 "/docs_{}" (mkOpts None None)
       (RejectedWith (JStr "Network Error")) ∅)
  = RejectedWith (JStr "Network Error")
  ∧ run_cache
      (cachedApiService.get 1050 1060 "/docs_{}" (mkOpts None None)
         (RejectedWith (JStr "Network Error")) ∅)
    ⊆ (∅ : Cache).
Proof.
  destruct (get_never_caches_a_failure 1050 1060 "/docs_{}"
              (mkOpts None None) ∅) as (_ & H & _).
  destruct (H (JStr "Network Error") _ eq_refl eq_refl) as (H1 & H2 & _).
  split; [exact H1 | exact H2].
Defined.

(** ** [ApiService.retry] *)

Section retry_facts.

Variable request : nat → Settled.
Variables maxRetries delay : Z.

Local Abbreviation loop :=
  (ApiService.retry_loop request maxRetries delay).

Lemma retry_loop_eq i lastError calls delays :
  loop i lastError calls delays =
  if decide (i ≤ maxRetries)%Z then
    match request calls with
    | Fulfilled value => mkRetryRun (Fulfilled value) (S calls) delays
    | RejectedWith error =>
        loop (i + 1)%Z error (S calls)
          (if decide (i < maxRetries)%Z
           then delays ++ [(delay * 2 ^ i)%Z]
           else delays)
    end
  else mkRetryRun (RejectedWith lastError) calls delays.
Proof.
  simp retry_loop.
  destruct (decide (i ≤ maxRetries)%Z); simpl; [|done].
  by destruct (request calls).
Qed.

Lemma backoff_shift i k :
  map (backoff delay i) (seq 1 k) = map (backoff delay (i + 1)) (seq 0 k).
Proof.
  rewrite <- seq_shift, map_map. apply map_ext. intros j.
  unfold backoff. do 2 f_equal. lia.
Qed.

(** Invocations are bounded by the iterations left, and one delay is slept
    between two consecutive invocations. *)
Lemma retry_loop_trace n : ∀ i lastError calls delays,
  (0 ≤ i)%Z →
  Z.to_nat (maxRetries + 1 - i) = n →
  ∃ m, (m ≤ n)%nat ∧ (0 < n → 0 < m)%nat
       ∧ retry_calls (loop i lastError calls delays) = (calls + m)%nat
       ∧ retry_delays (loop i lastError calls delays)
         = delays ++ map (backoff delay i) (seq 0 (pred m)).
Proof.
  induction n as [|n IH]; intros i lastError calls delays Hi Hn;
    rewrite retry_loop_eq.
  - destruct (decide _); [lia|]. exists 0. simpl.
    rewrite app_nil_r. repeat split; lia.
  - destruct (decide _); [|lia].
    destruct (request calls) as [v|e].
    + exists 1. simpl. rewrite app_nil_r. repeat split; lia.
    + destruct (IH (i + 1)%Z e (S calls)
                  (if decide (i < maxRetries)%Z
                   then delays ++ [(delay * 2 ^ i)%Z] else delays))
        as (m & Hm & Hpos & Hc & Hd); [lia..|].
      exists (S m). rewrite Hc, Hd. simpl.
      split; [lia|]. split; [lia|]. split; [lia|].
      destruct (decide (i < maxRetries)%Z).
      * destruct m as [|m]; [lia|]. simpl.
        rewrite <- app_assoc. simpl. rewrite backoff_shift.
        do 3 f_equal. unfold backoff. do 2 f_equal. lia.
      * assert (m = 0) as -> by lia. done.
Qed.

Lemma retry_loop_first_success k : ∀ i lastError calls delays v,
  (i + Z.of_nat k ≤ maxRetries)%Z →
  (∀ j, j < k → is_rejected (request (calls + j)) = true) →
  request (calls + k) = Fulfilled v →
  retry_result (loop i lastError calls delays) = Fulfilled v
  ∧ retry_calls (loop i lastError calls delays) = calls + k + 1.
Proof.
  induction k as [|k IH]; intros i lastError calls delays v Hi Hfail Hok;
    rewrite retry_loop_eq; (destruct (decide _); [|lia]).
  - rewrite Nat.add_0_r in Hok. rewrite Hok. simpl. split; [done|lia].
  - pose proof (Hfail 0 ltac:(lia)) as H0. rewrite Nat.add_0_r in H0.
    destruct (request calls) as [?|e]; [done|].
    replace (calls + S k + 1) with (S calls + k + 1) by lia.
    apply IH; [lia| |].
    + intros j Hj. replace (S calls + j) with (calls + S j) by lia.
      apply Hfail. lia.
    + by replace (S calls + k) with (calls + S k) by lia.
Qed.

Lemma retry_loop_exhausted n : ∀ i lastError calls delays,
  Z.to_nat (maxRetries + 1 - i) = n →
  (∀ j, j < n → is_rejected (request (calls + j)) = true) →
  retry_calls (loop i lastError calls delays) = calls + n
  ∧ retry_result (loop i lastError calls delays)
    = match n with
      | 0 => RejectedWith lastError
      | S n' => request (calls + n')
      end.
Proof.
  induction n as [|n IH]; intros i lastError calls delays Hn Hfail;
    rewrite retry_loop_eq.
  - destruct (decide _); [lia|]. simpl. split; [lia|done].
  - destruct (decide _); [|lia].
    pose proof (Hfail 0 ltac:(lia)) as H0. rewrite Nat.add_0_r in H0.
    destruct (request calls) as [?|e] eqn:Hr; [done|].
    destruct (IH (i + 1)%Z e (S calls)
                (if decide (i < maxRetries)%Z
                 then delays ++ [(delay * 2 ^ i)%Z] else delays))
      as [Hc Hres]; [lia| |].
    + intros j Hj. replace (S calls + j) with (calls + S j) by lia.
      apply Hfail. lia.
    + rewrite Hc, Hres. split; [lia|].
      destruct n as [|n'].
      * by rewrite Nat.add_0_r, Hr.
      * f_equal. lia.
Qed.

End retry_facts.

(** C6: [retry request maxRetries delay] invokes [request] at most
    [maxRetries + 1] times; before each further attempt, after failure
    number [j] (from 0), it waits [delay * 2^j]; it returns the first
    successful result; once all [maxRetries + 1] attempts have failed it
    throws the error of the last one. With [maxRetries = 3], [delay = 100]
    and an operation that fails twice and then succeeds, there are exactly
    3 invocations, the delays are 100 and 200, and the success value is
    returned. *)
Theorem retry_backs_off_and_returns_first_success
    (request : nat → Settled) (maxRetries delay : Z) :
  (Z.of_nat (retry_calls (ApiService.retry request (Some maxRetries) (Some delay)))
   ≤ Z.max 0 (maxRetries + 1))%Z
  ∧ retry_delays (ApiService.retry request (Some maxRetries) (Some delay))
    = map (λ j, (delay * 2 ^ Z.of_nat j)%Z)
        (seq 0 (pred (retry_calls
           (ApiService.retry request (Some maxRetries) (Some delay)))))
  ∧ (∀ k v,
     (Z.of_nat k ≤ maxRetries)%Z →
     (∀ j, j < k → is_rejected (request j) = true) →
     request k = Fulfilled v →
     retry_result (ApiService.retry request (Some maxRetries) (Some delay))
     = Fulfilled v
     ∧ retry_calls (ApiService.retry request (Some maxRetries) (Some delay))
       = k + 1)
  ∧ ((0 ≤ maxRetries)%Z →
     (∀ j, (Z.of_nat j ≤ maxRetries)%Z → is_rejected (request j) = true) →
     retry_result (ApiService.retry request (Some maxRetries) (Some delay))
     = request (Z.to_nat maxRetries)
     ∧ retry_calls (ApiService.retry request (Some maxRetries) (Some delay))
       = Z.to_nat maxRetries + 1)
  ∧ (∀ e1 e2 v,
     maxRetries = 3%Z → delay = 100%Z →
     request 0 = RejectedWith e1 → request 1 = RejectedWith e2 →
     request 2 = Fulfilled v →
     ApiService.retry request (Some maxRetries) (Some delay)
     = mkRetryRun (Fulfilled v) 3 [100%Z; 200%Z]).
Proof.
  unfold ApiService.retry, ApiService.retry_with. simpl.
  destruct (retry_loop_trace request maxRetries delay
              (Z.to_nat (maxRetries + 1)) 0%Z JUndefined 0 [])
    as (m & Hm & _ & Hc & Hd); [lia | f_equal; lia |].
  simpl in Hc, Hd.
  split; [rewrite Hc; lia|]. split; [by rewrite Hd, Hc|].
  split; [|split].
  - intros k v Hk Hfail Hok.
    apply (retry_loop_first_success request maxRetries delay k 0%Z
             JUndefined 0 [] v); [lia|done|done].
  - intros Hpos Hfail.
    destruct (retry_loop_exhausted request maxRetries delay
                (Z.to_nat (maxRetries + 1)) 0%Z JUndefined 0 [])
      as [Hc' Hres]; [f_equal; lia | intros j Hj; apply Hfail; lia |].
    simpl in Hc', Hres. rewrite Hc', Hres.
    replace (Z.to_nat (maxRetries + 1)) with (S (Z.to_nat maxRetries)) by lia.
    split; [done|lia].
  - intros e1 e2 v -> -> H0 H1 H2. simpl in *.
    rewrite retry_loop_eq, H0. simpl.
    rewrite retry_loop_eq, H1. simpl.
    by rewrite retry_loop_eq, H2.
Qed.

Lemma retry_backs_off_and_returns_first_success_witness :
  ApiService.retry
    (λ k, if (k <? 2)%nat then RejectedWith (JStr "ECONNRESET")
          else Fulfilled (JNum 42))
    (Some 3%Z) (Some 100%Z)
  = mkRetryRun (Fulfilled (JNum 42)) 3 [100%Z; 200%Z].
Proof.
  destruct (retry_backs_off_and_returns_first_success
              (λ k, if (k <? 2)%nat then RejectedWith (JStr "ECONNRESET")
                    else Fulfilled (JNum 42)) 3%Z 100%Z)
    as (_ & _ & _ & _ & H).
  by apply (H (JStr "ECONNRESET") (JStr "ECONNRESET") (JNum 42)).
Defined.

(** ** [ApiService.batch] *)

Section batch_facts.

Context {St : Type}.

Implicit Types (requests : list (@ApiService.Operation St)).
Implicit Types (promises : list (St → Settled * St)).

Lemma started_state_cons requests (request : @ApiService.Operation St) st :
  started_state (request :: requests) st
  = started_state requests (request st).2.
Proof. reflexivity. Qed.

(** When every call returns a promise, all the operations are called. *)
Lemma call_all_promised requests : ∀ promises st,
  length promises = length requests →
  (∀ i request, requests !! i = Some request →
     ∃ promise, promises !! i = Some promise
       ∧ (request (started_state (take i requests) st)).1 = Promised promise) →
  ApiService.call_all requests st
  = (promises, None, started_state requests st).
Proof.
  induction requests as [|request rest IH]; intros promises st Hlen Hp.
  - by destruct promises.
  - destruct promises as [|promise promises]; [done|].
    destruct (Hp 0 request eq_refl) as (p & [= <-] & H0). simpl in H0.
    simpl. destruct (request st) as [started st1] eqn:Hr. simpl in H0.
    subst started.
    rewrite (IH promises st1);
      [unfold started_state; simpl; by rewrite ?Hr| |].
    + simpl in Hlen. lia.
    + intros i r Hi. destruct (Hp (S i) r Hi) as (p & Hpi & Hs).
      exists p. split; [done|].
      unfold started_state in *. simpl in Hs. by rewrite ?Hr in Hs.
Qed.


Lemma before_app_in i (l1 l2 : list nat) :
  i ∈ l1 → before i (l1 ++ l2) = before i l1.
Proof.
  induction l1 as [|j l1 IH]; intros Hin; [by apply elem_of_nil in Hin|].
  simpl. destruct (decide (j = i)); [done|].
  apply elem_of_cons in Hin as [->|Hin]; [done|]. by rewrite IH.
Qed.

Lemma before_app_notin i (l1 l2 : list nat) :
  i ∉ l1 → before i (l1 ++ l2) = l1 ++ before i l2.
Proof.
  induction l1 as [|j l1 IH]; intros Hin; [done|].
  apply not_elem_of_cons in Hin as [Hne Hin].
  simpl. destruct (decide (j = i)); [congruence|]. by rewrite IH.
Qed.

Lemma settled_state_snoc promises schedule i st :
  settled_state promises (schedule ++ [i]) st
  = match promises !! i with
    | Some promise => (promise (settled_state promises schedule st)).2
    | None => settled_state promises schedule st
    end.
Proof. unfold settled_state. by rewrite fold_left_app. Qed.

(** The results array and the state while the promises settle. *)
Lemma settling promises st (schedule : list nat) :
  NoDup schedule →
  (∀ i, i ∈ schedule → i < length promises) →
  (fold_left (ApiService.settle_one promises) schedule
     (replicate (length promises) None, st)).2
  = settled_state promises schedule st
  ∧ length (fold_left (ApiService.settle_one promises) schedule
              (replicate (length promises) None, st)).1
    = length promises
  ∧ ∀ j promise, promises !! j = Some promise →
      (fold_left (ApiService.settle_one promises) schedule
         (replicate (length promises) None, st)).1 !! j
      = Some (if decide (j ∈ schedule)
              then Some (promise
                           (settled_state promises (before j schedule) st)).1
              else None).
Proof.
  induction schedule as [|i schedule IH] using rev_ind; intros Hnd Hlt.
  - simpl. split; [done|]. split; [apply length_replicate|].
    intros j promise Hj. rewrite lookup_replicate_2; [|by eapply lookup_lt_Some].
    destruct (decide (j ∈ [])) as [Hin|]; [by apply elem_of_nil in Hin | done].
  - apply NoDup_app in Hnd as (Hnd & Hni & _).
    assert (i ∉ schedule) as Hi.
    { intros Hin. apply (Hni i Hin). by left. }
    destruct IH as (Hst & Hlen & Hres); [done | |].
    { intros k Hk. apply Hlt, elem_of_app. by left. }
    rewrite fold_left_app. cbn [fold_left].
    destruct (fold_left (ApiService.settle_one promises) schedule
                (replicate (length promises) None, st)) as [results st1].
    cbn [fst snd] in *.
    assert (i < length promises) as Hilt.
    { apply Hlt, elem_of_app. right. by left. }
    destruct (lookup_lt_is_Some_2 promises i Hilt) as [p Hp].
    unfold ApiService.settle_one. cbn [fst snd].
    rewrite Hp, (Hres i p Hp).
    rewrite decide_False by done.
    rewrite settled_state_snoc, Hp, <- Hst.
    destruct (p st1) as [x st2] eqn:Hx. cbn [fst snd].
    split; [done|]. split; [by rewrite length_insert|].
    intros j promise Hj. destruct (decide (j = i)) as [->|Hne].
    + rewrite list_lookup_insert_eq by lia.
      rewrite decide_True by (apply elem_of_app; right; by left).
      rewrite before_app_notin by done. simpl.
      rewrite decide_True by done. rewrite app_nil_r, <- Hst.
      assert (promise = p) as -> by congruence. by rewrite Hx.
    + rewrite list_lookup_insert_ne by done. rewrite (Hres j promise Hj).
      destruct (decide (j ∈ schedule)) as [Hin|Hnin].
      * rewrite decide_True by (apply elem_of_app; by left).
        by rewrite before_app_in.
      * rewrite decide_False; [done|].
        intros Hin. apply elem_of_app in Hin as [?|Hin]; [done|].
        apply elem_of_cons in Hin as [?|Hin]; [done|].
        by apply elem_of_nil in Hin.
Qed.

Lemma all_settled_Some (xs : list Settled) :
  ApiService.all_settled (Some <$> xs) = Some xs.
Proof.
  induction xs as [|x xs IH]; [done|].
  rewrite fmap_cons. cbn [ApiService.all_settled]. by rewrite IH.
Qed.

(** Once every promise has settled, [Promise.allSettled] gives their
    outcomes in array order. *)
Lemma allSettled_complete promises schedule st :
  schedule ≡ₚ seq 0 (length promises) →
  ApiService.allSettled promises schedule st
  = (Some (outcomes promises schedule st),
     settled_state promises schedule st).
Proof.
  intros Hperm. unfold ApiService.allSettled.
  destruct (settling promises st schedule) as (Hst & Hlen & Hres).
  { rewrite Hperm. apply NoDup_seq. }
  { intros i Hi. rewrite Hperm in Hi. apply elem_of_seq in Hi. lia. }
  destruct (fold_left (ApiService.settle_one promises) schedule
              (replicate (length promises) None, st)) as [results st1].
  simpl in *. subst st1.
  assert (results = Some <$> outcomes promises schedule st) as ->;
    [|by rewrite all_settled_Some].
  apply list_eq. intros j. unfold outcomes.
  rewrite list_lookup_fmap, list_lookup_imap.
  destruct (promises !! j) as [p|] eqn:Hp.
  - rewrite (Hres j p Hp). simpl. rewrite decide_True; [done|].
    rewrite Hperm. apply elem_of_seq. apply lookup_lt_Some in Hp. lia.
  - simpl. apply lookup_ge_None. apply lookup_ge_None in Hp. lia.
Qed.

Lemma map_results_all_fulfilled values : ∀ index,
  ApiService.map_results index (map Fulfilled values) = (inl values, []).
Proof.
  induction values as [|v values IH]; intros index; simpl; [done|].
  by rewrite IH.
Qed.


(** A run of [batch] in which every call returns a promise and every
    promise settles. *)
Lemma batch_of_promises requests promises schedule st :
  length promises = length requests →
  (∀ i request, requests !! i = Some request →
     ∃ promise, promises !! i = Some promise
       ∧ (request (started_state (take i requests) st)).1 = Promised promise) →
  schedule ≡ₚ seq 0 (length requests) →
  ApiService.batch requests schedule st
  = mkBatchRun
      (Some (ApiService.map_results 0
               (outcomes promises schedule (started_state requests st))).1)
      (ApiService.map_results 0
         (outcomes promises schedule (started_state requests st))).2
      (Some (outcomes promises schedule (started_state requests st)))
      (length requests)
      (settled_state promises schedule (started_state requests st)).
Proof.
  intros Hlen Hp Hperm. unfold ApiService.batch.
  rewrite (call_all_promised requests promises st Hlen Hp).
  rewrite allSettled_complete by by rewrite Hlen.
  destruct (ApiService.map_results 0 _) as [r logged]. by rewrite Hlen.
Qed.

End batch_facts.




(** ** The interceptors: what one event does *)

Lemma step_spec s e : step s e = s ∨ delivers s e (step s e).
Proof.
  destruct e as [id url | id o | id o]; simpl.
  - destruct (tasks s !! id) eqn:Ht; [by left|]. right. by constructor.
  - destruct (tasks s !! id) as [[cfg| | |]|] eqn:Ht; try by left.
    right. destruct o as [response|error]; [by econstructor|].
    unfold response_rejected.
    destruct (is_401 error) eqn:H401; simpl;
      [destruct (cfg_retry cfg) eqn:Hr; simpl|];
      [| destruct (truthy (getItem _ _)) eqn:Hrt |].
    + apply D_rejected with cfg; [done|]. by rewrite H401, Hr.
    + by apply D_refresh.
    + apply D_rejected with cfg; [done|]. by rewrite H401, Hr, Hrt.
    + apply D_rejected with cfg; [done|]. by rewrite H401.
  - destruct (tasks s !! id) as [[|cfg error| |]|] eqn:Ht; try by left.
    right. unfold refresh_settled. destruct o as [response|error'].
    + destruct (nullish (resp_data response)) eqn:Hn.
      * by apply (D_logged_out s id cfg error (Ok response)).
      * by apply (D_replayed s id cfg error response).
    + by apply (D_logged_out s id cfg error (Err error')).
Qed.

Lemma count_app p calls c :
  count p (calls ++ [c]) = count p calls + (if p c then 1 else 0).
Proof.
  unfold count. rewrite List.filter_app, length_app. simpl.
  by destruct (p c).
Qed.

Lemma request_interceptor_retry w cfg :
  cfg_retry (request_interceptor w cfg) = cfg_retry cfg.
Proof. unfold request_interceptor. by destruct (truthy _). Qed.

(** ** At most one refresh and one replay per request *)

Ltac unfold_handlers :=
  unfold put, instance, reject_normalized, refresh_catch, redirect,
    log_error, send, with_storage in *; simpl in *.

Lemma eqb_other (id id' : nat) : id' ≠ id → Nat.eqb id id' = false.
Proof. intros. apply Nat.eqb_neq. congruence. Qed.

Lemma delivers_accounted s e s' :
  delivers s e s' → ∀ id, accounted id s → accounted id s'.
Proof.
  intros Hd id. unfold accounted, requests_of, refreshes_of.
  destruct Hd as [id' url Ht | id' cfg r Ht | id' cfg error Ht H401 Hr Hrt
                 | id' cfg error Ht Hc | id' cfg error r Ht Hn
                 | id' cfg error o Ht Hf];
    unfold_handlers; rewrite ?count_app; simpl;
    (destruct (decide (id' = id)) as [->|Hne];
     [ rewrite lookup_insert_eq, Ht, ?Nat.eqb_refl
     | rewrite lookup_insert_ne, ?eqb_other by done;
       rewrite ?Nat.add_0_r; tauto ]).
  - rewrite request_interceptor_retry. simpl. lia.
  - destruct (cfg_retry cfg); lia.
  - rewrite Hr. simpl. lia.
  - destruct (cfg_retry cfg); lia.
  - rewrite request_interceptor_retry. simpl. intros (-> & ? & ?). lia.
  - lia.
Qed.

Lemma step_accounted s e id : accounted id s → accounted id (step s e).
Proof.
  destruct (step_spec s e) as [-> | Hd]; [done|].
  by apply (delivers_accounted s e).
Qed.

Lemma run_accounted events : ∀ s id, accounted id s → accounted id (run s events).
Proof.
  induction events as [|e events IH]; intros s id H; simpl; [done|].
  apply IH. by apply step_accounted.
Qed.

Lemma start_accounted ls cache id : accounted id (start ls cache).
Proof. unfold accounted. simpl. by rewrite lookup_empty. Qed.

Lemma accounted_bounds id s :
  accounted id s → requests_of id s ≤ 2 ∧ refreshes_of id s ≤ 1.
Proof.
  unfold accounted.
  destruct (tasks s !! id) as [[cfg|cfg ?|?|?]|]; [destruct (cfg_retry cfg)| | | |];
    lia.
Qed.

(** C2: a request is refreshed for at most once and dispatched at most
    twice (the original call and one replay), over every sequence of
    events. A request that has been replayed carries the [_retry] flag,
    and when its replay fails, with a 401 or anything else, it is rejected
    at once with the normalized error: no refresh call, no further
    dispatch. *)
Theorem request_is_replayed_at_most_once (ls : Storage) (cache : Cache)
    (events : list Event) (id : nat) :
  refreshes_of id (run (start ls cache) events) ≤ 1
  ∧ requests_of id (run (start ls cache) events) ≤ 2
  ∧ (∀ cfg,
     tasks (run (start ls cache) events) !! id = Some (Sent cfg) →
     requests_of id (run (start ls cache) events) = 2 →
     cfg_retry cfg = true)
  ∧ (∀ cfg error,
     tasks (run (start ls cache) events) !! id = Some (Sent cfg) →
     cfg_retry cfg = true →
     tasks (step (run (start ls cache) events) (Response id (Err error))) !! id
     = Some (Rejected (apiError error))
     ∧ network (world (step (run (start ls cache) events)
                         (Response id (Err error))))
       = network (world (run (start ls cache) events))).
Proof.
  pose proof (run_accounted events _ id (start_accounted ls cache id)) as Hacc.
  destruct (accounted_bounds _ _ Hacc) as [Hreq Href].
  split; [done|]. split; [done|]. split.
  - intros cfg Ht H2. unfold accounted in Hacc. rewrite Ht in Hacc.
    destruct (cfg_retry cfg); [done|lia].
  - intros cfg error Ht Hr. simpl. rewrite Ht.
    unfold response_rejected. rewrite Hr, andb_false_r.
    unfold_handlers. by rewrite lookup_insert_eq.
Qed.

Lemma request_is_replayed_at_most_once_witness :
  tasks
    (step
       (run (start {[ storageKeys.refreshToken := "r1" ]} ∅)
          [ Request 0 "/api/v1/documents/";
            Response 0 (Err (mkError (JStr "Request failed with status code 401")
                               (JStr "ERR_BAD_REQUEST")
                               (Some (mkResponse 401 JUndefined))));
            RefreshResponse 0
              (Ok (mkResponse 200 (JObj [("access", JStr "a2")]))) ])
       (Response 0 (Err (mkError (JStr "Request failed with status code 401")
                           (JStr "ERR_BAD_REQUEST")
                           (Some (mkResponse 401 JUndefined)))))) !! 0
  = Some (Rejected
            (apiError (mkError (JStr "Request failed with status code 401")
                         (JStr "ERR_BAD_REQUEST")
                         (Some (mkResponse 401 JUndefined))))).
Proof.
  destruct (request_is_replayed_at_most_once
              {[ storageKeys.refreshToken := "r1" ]} ∅
              [ Request 0 "/api/v1/documents/";
                Response 0 (Err (mkError (JStr "Request failed with status code 401")
                                   (JStr "ERR_BAD_REQUEST")
                                   (Some (mkResponse 401 JUndefined))));
                RefreshResponse 0
                  (Ok (mkResponse 200 (JObj [("access", JStr "a2")]))) ] 0)
    as (_ & _ & _ & H).
  eapply H; [vm_compute; reflexivity | reflexivity].
Defined.

(** ** Concurrent 401 responses *)

Lemma count_refresh_app calls c :
  count is_refresh (calls ++ [c])
  = count is_refresh calls + (if is_refresh c then 1 else 0).
Proof. apply count_app. Qed.

(** An event of one request leaves the others where they stand. *)
Lemma step_other s e id :
  event_id e ≠ id →
  tasks (step s e) !! id = tasks s !! id
  ∧ requests_of id (step s e) = requests_of id s
  ∧ refreshes_of id (step s e) = refreshes_of id s.
Proof.
  intros Hne. destruct (step_spec s e) as [-> | Hd]; [done|].
  unfold requests_of, refreshes_of.
  destruct Hd; simpl in Hne; unfold_handlers;
    rewrite ?count_app, lookup_insert_ne by done; simpl;
    rewrite ?eqb_other by done; repeat split; lia.
Qed.

(** A suspended handler is resumed by the settling of its own refresh call
    and by nothing else. *)
Lemma refreshing_waits s id cfg error e :
  tasks s !! id = Some (Refreshing cfg error) →
  (∀ o, e ≠ RefreshResponse id o) →
  tasks (step s e) !! id = Some (Refreshing cfg error).
Proof.
  intros Ht Hne. destruct (decide (event_id e = id)) as [<-|Hid].
  - destruct e as [id url | id o | id o]; simpl in *; rewrite ?Ht; [done..|].
    by destruct (Hne o).
  - destruct (step_other s e id Hid) as [-> _]. done.
Qed.

Lemma observe_401 s id cfg error :
  tasks s !! id = Some (Sent cfg) → cfg_retry cfg = false →
  is_401 error = true →
  truthy (getItem storageKeys.refreshToken (localStorage (world s))) = true →
  localStorage (world (step s (Response id (Err error))))
  = localStorage (world s)
  ∧ tasks (step s (Response id (Err error))) !! id
    = Some (Refreshing (retried cfg) error)
  ∧ count is_refresh (network (world (step s (Response id (Err error)))))
    = count is_refresh (network (world s)) + 1
  ∧ refreshes_of id (step s (Response id (Err error)))
    = refreshes_of id s + 1.
Proof.
  intros Ht Hr H401 Hrt. unfold refreshes_of. simpl. rewrite Ht.
  unfold response_rejected. rewrite H401, Hr, Hrt. unfold_handlers.
  rewrite lookup_insert_eq, !count_app. simpl. by rewrite Nat.eqb_refl.
Qed.

Lemma run_cons s e events : run s (e :: events) = run (step s e) events.
Proof. reflexivity. Qed.

Lemma observe_401s (errors : nat → AxiosError) ids : ∀ s,
  NoDup ids →
  (∀ id, id ∈ ids →
     ∃ cfg, tasks s !! id = Some (Sent cfg) ∧ cfg_retry cfg = false) →
  (∀ id, id ∈ ids → is_401 (errors id) = true) →
  truthy (getItem storageKeys.refreshToken (localStorage (world s))) = true →
  localStorage (world (run s (map (λ id, Response id (Err (errors id))) ids)))
  = localStorage (world s)
  ∧ count is_refresh
      (network (world (run s (map (λ id, Response id (Err (errors id))) ids))))
    = count is_refresh (network (world s)) + length ids
  ∧ (∀ id, id ∉ ids →
     tasks (run s (map (λ id, Response id (Err (errors id))) ids)) !! id
     = tasks s !! id
     ∧ refreshes_of id (run s (map (λ id, Response id (Err (errors id))) ids))
       = refreshes_of id s)
  ∧ (∀ id, id ∈ ids →
     refreshes_of id (run s (map (λ id, Response id (Err (errors id))) ids))
     = refreshes_of id s + 1
     ∧ ∃ cfg,
       tasks (run s (map (λ id, Response id (Err (errors id))) ids)) !! id
       = Some (Refreshing cfg (errors id))).
Proof.
  induction ids as [|id ids IH]; intros s Hnd Hsent H401 Hrt;
    [simpl | rewrite map_cons, run_cons].
  - split; [done|]. split; [lia|]. split; [done|].
    intros id Hin. by apply elem_of_nil in Hin.
  - apply NoDup_cons in Hnd as [Hid Hnd].
    destruct (Hsent id) as (cfg & Ht & Hr); [by left|].
    destruct (observe_401 s id cfg (errors id) Ht Hr) as (Hls & Ht1 & Hc1 & Hr1);
      [apply H401; by left | done |].
    set (s1 := step s (Response id (Err (errors id)))) in *.
    destruct (IH s1) as (Hls' & Hc' & Hout & Hin); [done | | | |].
    + intros id' Hin'. assert (id ≠ id') by (intros ->; done).
      destruct (step_other s (Response id (Err (errors id))) id') as [Ht' _];
        [done|].
      fold s1 in Ht'. rewrite Ht'. apply Hsent. by right.
    + intros id' Hin'. apply H401. by right.
    + by rewrite Hls.
    + split; [by rewrite Hls', Hls|]. split; [rewrite Hc', Hc1; simpl; lia|]. split.
      * intros id' Hnin. apply not_elem_of_cons in Hnin as [Hne Hnin].
        destruct (Hout id' Hnin) as [-> ->].
        destruct (step_other s (Response id (Err (errors id))) id')
          as (Ht' & _ & Hr'); [done|]. by fold s1 in Ht', Hr'.
      * intros id' Hin'. apply elem_of_cons in Hin' as [->|Hin'].
        -- destruct (Hout id Hid) as [-> ->]. split; [done|]. eauto.
        -- destruct (Hin id' Hin') as [-> Hex]. split; [|done].
           assert (id ≠ id') by (intros ->; done).
           destruct (step_other s (Response id (Err (errors id))) id')
             as (_ & _ & Hr'); [done|]. fold s1 in Hr'. by rewrite Hr'.
Qed.

(** C1, as the specification words it, fails: the handler has no shared
    pending refresh. Two requests whose 401 responses arrive before any
    refresh call has settled make two refresh calls. *)
Lemma two_401s_make_two_refresh_calls :
  count is_refresh
    (network (world
       (run (start {[ storageKeys.refreshToken := "r1" ]} ∅)
          [ Request 0 "/api/v1/documents/";
            Request 1 "/api/v1/categories/";
            Response 0 (Err (mkError (JStr "Request failed with status code 401")
                               (JStr "ERR_BAD_REQUEST")
                               (Some (mkResponse 401 JUndefined))));
            Response 1 (Err (mkError (JStr "Request failed with status code 401")
                               (JStr "ERR_BAD_REQUEST")
                               (Some (mkResponse 401 JUndefined)))) ])))
  = 2.
Proof. vm_compute. reflexivity. Qed.

(** C1 (amended): when [N] pending requests, not yet retried, each receive
    a 401 before any refresh call settles, and a refresh token is stored,
    each of them makes a refresh call of its own, [N] in all, and is then
    suspended on it. A request suspended in this way is resumed by the
    settling (resolution or rejection) of its own refresh call and by no
    other event. *)
Theorem each_401_makes_its_own_refresh_call (s : State) (ids : list nat)
    (errors : nat → AxiosError) :
  NoDup ids →
  (∀ id, id ∈ ids →
     ∃ cfg, tasks s !! id = Some (Sent cfg) ∧ cfg_retry cfg = false) →
  (∀ id, id ∈ ids → is_401 (errors id) = true) →
  truthy (getItem storageKeys.refreshToken (localStorage (world s))) = true →
  count is_refresh
    (network (world (run s (map (λ id, Response id (Err (errors id))) ids))))
  = count is_refresh (network (world s)) + length ids
  ∧ (∀ id, id ∈ ids →
     refreshes_of id (run s (map (λ id, Response id (Err (errors id))) ids))
     = refreshes_of id s + 1
     ∧ ∃ cfg,
       tasks (run s (map (λ id, Response id (Err (errors id))) ids)) !! id
       = Some (Refreshing cfg (errors id)))
  ∧ (∀ s' id cfg error e,
     tasks s' !! id = Some (Refreshing cfg error) →
     (∀ o, e ≠ RefreshResponse id o) →
     tasks (step s' e) !! id = Some (Refreshing cfg error)).
Proof.
  intros Hnd Hsent H401 Hrt.
  destruct (observe_401s errors ids s Hnd Hsent H401 Hrt)
    as (_ & Hc & _ & Hin).
  split; [done|]. split; [done|].
  intros s' id cfg error e. apply refreshing_waits.
Qed.

Lemma each_401_makes_its_own_refresh_call_witness :
  count is_refresh
    (network (world
       (run
          (run (start {[ storageKeys.refreshToken := "r1" ]} ∅)
             [ Request 0 "/api/v1/documents/";
               Request 1 "/api/v1/categories/";
               Request 2 "/api/v1/tags/" ])
          (map (λ id, Response id
                        (Err (mkError (JStr "Request failed with status code 401")
                                (JStr "ERR_BAD_REQUEST")
                                (Some (mkResponse 401 JUndefined)))))
             [2; 0; 1]))))
  = count is_refresh
      (network (world
         (run (start {[ storageKeys.refreshToken := "r1" ]} ∅)
            [ Request 0 "/api/v1/documents/";
              Request 1 "/api/v1/categories/";
              Request 2 "/api/v1/tags/" ])))
    + length [2; 0; 1].
Proof.
  refine (proj1 (each_401_makes_its_own_refresh_call _ [2; 0; 1]
                   (λ _, mkError (JStr "Request failed with status code 401")
                           (JStr "ERR_BAD_REQUEST")
                           (Some (mkResponse 401 JUndefined))) _ _ _ _)).
  - apply (bool_decide_unpack (NoDup [2; 0; 1])). vm_compute. exact I.
  - intros id Hin.
    repeat (apply elem_of_cons in Hin as [-> | Hin];
            [eexists; split; vm_compute; reflexivity |]).
    by apply elem_of_nil in Hin.
  - reflexivity.
  - vm_compute. reflexivity.
Defined.

(** ** What the handlers do to [localStorage] and to settled requests *)

Lemma delivers_storage s e s' :
  delivers s e s' →
  localStorage (world s') = localStorage (world s)
  ∨ (∃ id response,
       e = RefreshResponse id (Ok response)
       ∧ nullish (resp_data response) = false
       ∧ localStorage (world s')
         = setItem storageKeys.accessToken
             (opt_get (resp_data response) "access") (localStorage (world s)))
  ∨ (∃ id o,
       e = RefreshResponse id o ∧ refresh_failed o = true
       ∧ localStorage (world s')
         = AuthService.clearLocalStorage (localStorage (world s))).
Proof.
  destruct 1; unfold_handlers; eauto 8.
Qed.

Lemma delivers_cache s e s' :
  delivers s e s' → requestCache (world s') = requestCache (world s).
Proof. by destruct 1. Qed.

Lemma step_cache s e : requestCache (world (step s e)) = requestCache (world s).
Proof.
  destruct (step_spec s e) as [-> | Hd]; [done|].
  by apply (delivers_cache s e).
Qed.

Lemma run_cache_unchanged events : ∀ s,
  requestCache (world (run s events)) = requestCache (world s).
Proof.
  induction events as [|e events IH]; intros s; [done|].
  by rewrite run_cons, IH, step_cache.
Qed.

(** A settled request stays as it is, and nothing more is sent for it. *)
Lemma settled_is_final s id e :
  (∃ r, tasks s !! id = Some (Resolved r))
  ∨ (∃ r, tasks s !! id = Some (Rejected r)) →
  tasks (step s e) !! id = tasks s !! id
  ∧ requests_of id (step s e) = requests_of id s
  ∧ refreshes_of id (step s e) = refreshes_of id s.
Proof.
  intros Ht. destruct (decide (event_id e = id)) as [<-|Hid];
    [|by apply step_other].
  destruct e as [id url | id o | id o]; simpl in *;
    destruct Ht as [[r Ht]|[r Ht]]; by rewrite Ht.
Qed.

Lemma rejected_is_final events : ∀ s id reason,
  tasks s !! id = Some (Rejected reason) →
  tasks (run s events) !! id = Some (Rejected reason)
  ∧ requests_of id (run s events) = requests_of id s
  ∧ refreshes_of id (run s events) = refreshes_of id s.
Proof.
  induction events as [|e events IH]; intros s id reason Ht; [done|].
  rewrite run_cons.
  destruct (settled_is_final s id e) as (Ht' & Hq & Hf); [eauto|].
  rewrite Ht in Ht'. destruct (IH _ _ _ Ht') as (-> & -> & ->). by rewrite Hq, Hf.
Qed.

(** ** Failure of the refresh *)

(** C4, as the specification words it, fails: there is no [AuthExpired]
    error. When the refresh call is rejected, the request is rejected with
    the normalized form of the 401 it received, here the [code] and body
    the server sent with it. *)
Lemma failed_refresh_rejects_with_the_401 :
  tasks
    (run (start {[ storageKeys.refreshToken := "r1" ]} ∅)
       [ Request 0 "/api/v1/documents/";
         Response 0
           (Err (mkError (JStr "Request failed with status code 401")
                   (JStr "ERR_BAD_REQUEST")
                   (Some (mkResponse 401
                            (JObj [("detail", JStr "Token is invalid or expired");
                                   ("code", JStr "token_not_valid")])))));
         RefreshResponse 0
           (Err (mkError (JStr "Request failed with status code 401")
                   (JStr "ERR_BAD_REQUEST")
                   (Some (mkResponse 401 JUndefined)))) ]) !! 0
  = Some (Rejected
            (JObj [("message", JStr "Request failed with status code 401");
                   ("code", JStr "token_not_valid");
                   ("details",
                    JObj [("detail", JStr "Token is invalid or expired");
                          ("code", JStr "token_not_valid")])]))
  ∧ is_AuthExpired
      (JObj [("message", JStr "Request failed with status code 401");
             ("code", JStr "token_not_valid");
             ("details",
              JObj [("detail", JStr "Token is invalid or expired");
                    ("code", JStr "token_not_valid")])])
    = false.
Proof. split; vm_compute; reflexivity. Qed.

(** C4 (amended): when the refresh call made for a 401 fails, or when
    there is no refresh token to make it with, the request is rejected with
    the normalized form of the 401 error it received, and nothing is sent:
    the request is not replayed. Once rejected it stays rejected, and no
    later event sends or refreshes anything for it. *)
Theorem failed_refresh_rejects_without_retry (s : State) (id : nat)
    (cfg : RequestConfig) (error : AxiosError) :
  (∀ o,
     tasks s !! id = Some (Refreshing cfg error) →
     refresh_failed o = true →
     tasks (step s (RefreshResponse id o)) !! id
     = Some (Rejected (apiError error))
     ∧ network (world (step s (RefreshResponse id o))) = network (world s))
  ∧ (tasks s !! id = Some (Sent cfg) →
     is_401 error = true →
     truthy (getItem storageKeys.refreshToken (localStorage (world s)))
     = false →
     tasks (step s (Response id (Err error))) !! id
     = Some (Rejected (apiError error))
     ∧ network (world (step s (Response id (Err error))))
       = network (world s))
  ∧ (∀ reason events,
     tasks s !! id = Some (Rejected reason) →
     tasks (run s events) !! id = Some (Rejected reason)
     ∧ requests_of id (run s events) = requests_of id s
     ∧ refreshes_of id (run s events) = refreshes_of id s).
Proof.
  split; [|split].
  - intros o Ht Hf. simpl. rewrite Ht. unfold refresh_settled.
    destruct o as [response|error']; simpl in Hf; rewrite ?Hf;
      unfold_handlers; by rewrite lookup_insert_eq.
  - intros Ht H401 Hrt. simpl. rewrite Ht. unfold response_rejected.
    rewrite H401, Hrt. destruct (negb (cfg_retry cfg)); simpl;
      unfold_handlers; by rewrite lookup_insert_eq.
  - intros reason events. apply rejected_is_final.
Qed.

Lemma failed_refresh_rejects_without_retry_witness :
  tasks
    (step
       (run (start {[ storageKeys.refreshToken := "r1" ]} ∅)
          [ Request 0 "/api/v1/documents/";
            Response 0
              (Err (mkError (JStr "Request failed with status code 401")
                      (JStr "ERR_BAD_REQUEST")
                      (Some (mkResponse 401 JUndefined)))) ])
       (RefreshResponse 0
          (Err (mkError (JStr "Network Error") (JStr "ERR_NETWORK") None))))
    !! 0
  = Some (Rejected
            (apiError (mkError (JStr "Request failed with status code 401")
                         (JStr "ERR_BAD_REQUEST")
                         (Some (mkResponse 401 JUndefined))))).
Proof.
  destruct (failed_refresh_rejects_without_retry
              (run (start {[ storageKeys.refreshToken := "r1" ]} ∅)
                 [ Request 0 "/api/v1/documents/";
                   Response 0
                     (Err (mkError (JStr "Request failed with status code 401")
                             (JStr "ERR_BAD_REQUEST")
                             (Some (mkResponse 401 JUndefined)))) ])
              0 (mkConfig "/api/v1/documents/" true None)
              (mkError (JStr "Request failed with status code 401")
                 (JStr "ERR_BAD_REQUEST")
                 (Some (mkResponse 401 JUndefined))))
    as (H & _).
  apply H; [vm_compute; reflexivity | reflexivity].
Defined.

(** No handler stores a user snapshot. *)
Lemma step_user_absent s e :
  localStorage (world s) !! storageKeys.user = None →
  localStorage (world (step s e)) !! storageKeys.user = None.
Proof.
  intros Hu. destruct (step_spec s e) as [-> | Hd]; [done|].
  destruct (delivers_storage s e _ Hd)
    as [-> | [(id & r & _ & _ & ->) | (id & o & _ & _ & ->)]]; [done| |].
  - unfold setItem. by rewrite lookup_insert_ne.
  - unfold AuthService.clearLocalStorage, removeItem.
    apply lookup_delete_eq.
Qed.

Lemma run_user_absent events : ∀ s,
  localStorage (world s) !! storageKeys.user = None →
  localStorage (world (run s events)) !! storageKeys.user = None.
Proof.
  induction events as [|e events IH]; intros s Hu; [done|].
  rewrite run_cons. by apply IH, step_user_absent.
Qed.

Lemma forEach_calls listeners isAuthenticated user :
  AuthStateManager.calls
    (AuthStateManager.forEach listeners isAuthenticated user)
  = map (λ _, (isAuthenticated, user)) listeners.
Proof. induction listeners as [|l ls IH]; simpl; [done | by rewrite IH]. Qed.

Lemma notify_without_user JSON_parse listeners (ls : Storage) :
  ls !! storageKeys.user = None →
  AuthStateManager.calls
    (AuthStateManager.notifyStateChange JSON_parse listeners ls)
  = map (λ _, (false, JNull)) listeners.
Proof.
  intros Hu. unfold AuthStateManager.notifyStateChange.
  rewrite forEach_calls.
  unfold AuthService.isAuthenticated, AuthService.getLocalUser, getItem.
  rewrite Hu. simpl. by rewrite andb_false_r.
Qed.

(** C5, as the specification words it, fails in one part: the handler of a
    failed refresh does not touch the request cache. An entry cached
    before the failure is still there after it. *)
Lemma failed_refresh_keeps_the_request_cache :
  requestCache
    (world
       (run (start {[ storageKeys.accessToken := "a1";
                      storageKeys.refreshToken := "r1";
                      storageKeys.user := "{}" ]}
               {[ "/api/v1/documents/_{}" := mkItem (JStr "cached") 1000 300000 ]})
          [ Request 0 "/api/v1/categories/";
            Response 0
              (Err (mkError (JStr "Request failed with status code 401")
                      (JStr "ERR_BAD_REQUEST")
                      (Some (mkResponse 401 JUndefined))));
            RefreshResponse 0
              (Err (mkError (JStr "Request failed with status code 401")
                      (JStr "ERR_BAD_REQUEST")
                      (Some (mkResponse 401 JUndefined)))) ]))
    !! "/api/v1/documents/_{}"
  = Some (mkItem (JStr "cached") 1000 300000).
Proof. vm_compute. reflexivity. Qed.

(** C5 (amended): every failed refresh call ends in a logout. When the
    refresh call made by the response handler fails, the access token, the
    refresh token and the user snapshot are removed from storage and the
    page is sent to the login route; the request cache is left as it is.
    From then on, whatever the interceptors do next, [notifyStateChange]
    calls every listener with [isAuthenticated = false] and [user = null].
    The same holds for [autoRefreshToken], the one caller of
    [AuthService.refreshToken]: whenever that call fails, for want of a
    refresh token or because the post was rejected, the three keys are
    removed, the page is sent to the login route, and listeners are told
    [false] and [null]. *)
Theorem failed_refresh_clears_credentials (JSON_parse : string → option JsVal)
    (s : State) (id : nat) (cfg : RequestConfig) (error : AxiosError)
    (o : Outcome) (ls ls1 : Storage) (posted : Settled) :
  (tasks s !! id = Some (Refreshing cfg error) →
   refresh_failed o = true →
   localStorage (world (step s (RefreshResponse id o)))
     !! storageKeys.accessToken = None
   ∧ localStorage (world (step s (RefreshResponse id o)))
       !! storageKeys.refreshToken = None
   ∧ localStorage (world (step s (RefreshResponse id o)))
       !! storageKeys.user = None
   ∧ location_href (world (step s (RefreshResponse id o)))
     = Some "/auth/login"
   ∧ requestCache (world (step s (RefreshResponse id o)))
     = requestCache (world s)
   ∧ (∀ events listeners,
      AuthStateManager.calls
        (AuthStateManager.notifyStateChange JSON_parse listeners
           (localStorage
              (world (run (step s (RefreshResponse id o)) events))))
      = map (λ _, (false, JNull)) listeners))
  ∧ ((truthy (getItem storageKeys.refreshToken ls) = false
      ∨ is_rejected (AuthService.refreshToken_resume posted ls1).1 = true) →
     (AuthService.autoRefreshToken true ls posted ls1).1
       !! storageKeys.accessToken = None
     ∧ (AuthService.autoRefreshToken true ls posted ls1).1
         !! storageKeys.refreshToken = None
     ∧ (AuthService.autoRefreshToken true ls posted ls1).1
         !! storageKeys.user = None
     ∧ (AuthService.autoRefreshToken true ls posted ls1).2
       = Some "/auth/login"
     ∧ (∀ listeners,
        AuthStateManager.calls
          (AuthStateManager.notifyStateChange JSON_parse listeners
             (AuthService.autoRefreshToken true ls posted ls1).1)
        = map (λ _, (false, JNull)) listeners)).
Proof.
  split.
  - intros Ht Hf.
    assert (world (step s (RefreshResponse id o))
            = (refresh_catch error (world s)).1) as Hw.
    { simpl. rewrite Ht. unfold refresh_settled.
      destruct o as [response|error']; simpl in Hf; by rewrite ?Hf. }
    assert (localStorage (world (step s (RefreshResponse id o)))
              !! storageKeys.user = None) as Hu.
    { rewrite Hw. unfold_handlers. unfold removeItem. apply lookup_delete_eq. }
    split; [|split; [|split; [done|split; [|split]]]].
    + rewrite Hw. unfold_handlers. unfold removeItem.
      rewrite !lookup_delete_ne by done. apply lookup_delete_eq.
    + rewrite Hw. unfold_handlers. unfold removeItem.
      rewrite lookup_delete_ne by done. apply lookup_delete_eq.
    + by rewrite Hw.
    + apply step_cache.
    + intros events listeners. by apply notify_without_user, run_user_absent.
  - intros Hfail.
    assert (∃ ls0, AuthService.autoRefreshToken true ls posted ls1
                   = (AuthService.clearLocalStorage ls0, Some "/auth/login"))
      as [ls0 ->].
    { unfold AuthService.autoRefreshToken, AuthService.refreshToken_start.
      destruct (truthy (getItem storageKeys.refreshToken ls)) eqn:Hrt;
        [|by exists ls].
      destruct Hfail as [?|Hrej]; [done|].
      destruct (AuthService.refreshToken_resume posted ls1) as [[?|e] ls2];
        [done|]. by exists ls2. }
    assert (AuthService.clearLocalStorage ls0 !! storageKeys.user = None)
      as Hu by apply lookup_delete_eq.
    simpl. unfold AuthService.clearLocalStorage, removeItem in *.
    split; [rewrite !lookup_delete_ne by done; apply lookup_delete_eq|].
    split; [rewrite lookup_delete_ne by done; apply lookup_delete_eq|].
    split; [done|]. split; [done|].
    intros listeners. by apply notify_without_user.
Qed.

Lemma failed_refresh_clears_credentials_witness :
  AuthStateManager.calls
    (AuthStateManager.notifyStateChange (λ _, Some (JObj []))
       [ (λ (_ : bool) (_ : JsVal), false); (λ _ _, true) ]
       (localStorage
          (world
             (run
                (step
                   (run (start {[ storageKeys.accessToken := "a1";
                                  storageKeys.refreshToken := "r1";
                                  storageKeys.user := "{}" ]} ∅)
                      [ Request 0 "/api/v1/categories/";
                        Response 0
                          (Err (mkError
                                  (JStr "Request failed with status code 401")
                                  (JStr "ERR_BAD_REQUEST")
                                  (Some (mkResponse 401 JUndefined)))) ])
                   (RefreshResponse 0
                      (Err (mkError (JStr "Network Error")
                              (JStr "ERR_NETWORK") None))))
                [ Request 1 "/api/v1/tags/" ]))))
  = map (λ _ : AuthStateManager.Listener, (false, JNull)) [ (λ (_ : bool) (_ : JsVal), false); (λ _ _, true) ].
Proof.
  refine (proj2 (proj2 (proj2 (proj2 (proj2
            (proj1
               (failed_refresh_clears_credentials (λ _, Some (JObj []))
                  _ 0 (mkConfig "/api/v1/categories/" true (Some "Bearer a1"))
                  (mkError (JStr "Request failed with status code 401")
                     (JStr "ERR_BAD_REQUEST")
                     (Some (mkResponse 401 JUndefined)))
                  (Err (mkError (JStr "Network Error") (JStr "ERR_NETWORK")
                          None))
                  ∅ ∅ (Fulfilled JNull))
               _ _))))) [ Request 1 "/api/v1/tags/" ] _).
  - vm_compute. reflexivity.
  - reflexivity.
Defined.

(** ** The shape of the errors *)

Lemma run_snoc s events e : run s (events ++ [e]) = step (run s events) e.
Proof. unfold run. by rewrite fold_left_app. Qed.

Lemma traced_more events e s : traced events s → traced (events ++ [e]) s.
Proof.
  intros H id. specialize (H id).
  destruct (tasks s !! id) as [[| | |]|]; [done| |done| |done].
  - apply elem_of_app. by left.
  - destruct H as (error & Hin & ->). exists error.
    split; [|done]. apply elem_of_app. by left.
Qed.

Lemma delivers_traced events s e s' :
  delivers s e s' → traced events s → traced (events ++ [e]) s'.
Proof.
  intros Hd Htr id. pose proof (traced_more events e s Htr id) as Hold.
  pose proof (Htr id) as Hnow.
  assert (e ∈ events ++ [e]) as Hlast by (apply elem_of_app; right; by left).
  destruct Hd as [id' url Ht | id' cfg r Ht | id' cfg error Ht H401 Hr Hrt
                 | id' cfg error Ht Hc | id' cfg error r Ht Hn
                 | id' cfg error o Ht Hf];
    unfold_handlers;
    (destruct (decide (id' = id)) as [->|Hne];
     [ rewrite lookup_insert_eq | by rewrite lookup_insert_ne ]);
    try done; eauto.
  - rewrite Ht in Hold. eauto.
Qed.

Lemma run_traced ls cache events : traced events (run (start ls cache) events).
Proof.
  induction events as [|e events IH] using rev_ind.
  - intros id. simpl. by rewrite lookup_empty.
  - rewrite run_snoc. destruct (step_spec (run (start ls cache) events) e)
      as [-> | Hd]; [by apply traced_more | by eapply delivers_traced].
Qed.

(** C8, as the specification words it, fails in its last part. When the
    body the server sent has a [details] field of its own, [details] is
    that field and not the body. *)
Lemma details_is_the_details_field_of_the_body :
  response_data
    (mkError (JStr "Request failed with status code 400")
       (JStr "ERR_BAD_REQUEST")
       (Some (mkResponse 400
                (JObj [("message", JStr "Invalid input");
                       ("code", JStr "validation_error");
                       ("details", JObj [("title", JStr "required")])]))))
  = JObj [("message", JStr "Invalid input");
          ("code", JStr "validation_error");
          ("details", JObj [("title", JStr "required")])]
  ∧ opt_get
      (apiError
         (mkError (JStr "Request failed with status code 400")
            (JStr "ERR_BAD_REQUEST")
            (Some (mkResponse 400
                     (JObj [("message", JStr "Invalid input");
                            ("code", JStr "validation_error");
                            ("details", JObj [("title", JStr "required")])])))))
      "details"
    = JObj [("title", JStr "required")].
Proof. split; reflexivity. Qed.

(** C8 (amended): every rejection that reaches a caller of the client is
    an object with exactly the fields [message], [code] and [details],
    built from an error that a response delivered to that request, be it a
    failure below HTTP or one the server answered. [message] is the
    server's message when it sent one, and otherwise the description
    carried by the error (or the fixed default when that is empty).
    [details] is the [details] field of the server's body when the body
    has one, and otherwise the body as received ([undefined] when there is
    none). *)
Theorem rejections_are_normalized (ls : Storage) (cache : Cache)
    (events : list Event) (id : nat) (reason : JsVal) :
  tasks (run (start ls cache) events) !! id = Some (Rejected reason) →
  keys reason = ["message"; "code"; "details"]
  ∧ ∃ error,
      Response id (Err error) ∈ events
      ∧ reason = apiError error
      ∧ (truthy (opt_get (response_data error) "message") = true →
         opt_get reason "message" = opt_get (response_data error) "message")
      ∧ (truthy (opt_get (response_data error) "message") = false →
         opt_get reason "message"
         = js_or (err_message error) (JStr "请求失败"))
      ∧ (truthy (opt_get (response_data error) "details") = true →
         opt_get reason "details" = opt_get (response_data error) "details")
      ∧ (truthy (opt_get (response_data error) "details") = false →
         opt_get reason "details" = response_data error)
      ∧ (err_response error = None →
         reason = JObj [("message", js_or (err_message error) (JStr "请求失败"));
                        ("code", err_code error);
                        ("details", JUndefined)]).
Proof.
  intros Ht. pose proof (run_traced ls cache events id) as Htr.
  rewrite Ht in Htr. destruct Htr as (error & Hin & ->).
  split; [done|]. exists error. split; [done|]. split; [done|].
  unfold apiError, js_or. simpl.
  split; [|split; [|split; [|split]]].
  - intros H. by rewrite !H.
  - intros H. by rewrite !H.
  - intros H. by rewrite !H.
  - intros H. by rewrite !H.
  - unfold response_data. intros H. by rewrite H.
Qed.

Lemma rejections_are_normalized_witness :
  keys
    (apiError (mkError (JStr "Network Error") (JStr "ERR_NETWORK") None))
  = ["message"; "code"; "details"].
Proof.
  refine (proj1 (rejections_are_normalized ∅ ∅
                   [ Request 0 "/api/v1/documents/";
                     Response 0 (Err (mkError (JStr "Network Error")
                                        (JStr "ERR_NETWORK") None)) ]
                   0 _ _)).
  vm_compute. reflexivity.
Defined.

(** ** What a successful refresh writes *)

Lemma step_writes_access_token_only s e k :
  refresh_succeeds e = true →
  k ≠ storageKeys.accessToken →
  localStorage (world (step s e)) !! k = localStorage (world s) !! k.
Proof.
  intros He Hk. destruct (step_spec s e) as [-> | Hd]; [done|].
  destruct (delivers_storage s e _ Hd)
    as [-> | [(id & r & _ & _ & ->) | (id & o & -> & Hf & _)]]; [done| |].
  - unfold setItem. by rewrite lookup_insert_ne.
  - simpl in He. by rewrite Hf in He.
Qed.

Lemma run_writes_access_token_only events : ∀ s k,
  forallb refresh_succeeds events = true →
  k ≠ storageKeys.accessToken →
  localStorage (world (run s events)) !! k = localStorage (world s) !! k.
Proof.
  induction events as [|e events IH]; intros s k He Hk; [done|].
  simpl in He. apply andb_true_iff in He as [He Hes].
  rewrite run_cons, IH by done. by apply step_writes_access_token_only.
Qed.

(** C9: on the path of a successful refresh only the access-token key is
    written. In the response handler, the step that resumes after the
    refresh call stores the new access token and nothing else, and over
    any run of the interceptors in which no refresh call fails (the 401,
    the refresh, the replay and its response included) the refresh-token
    key, the user snapshot and every other key keep their value. In
    [AuthService.refreshToken], a call that returns has stored the access
    token and nothing else. *)
Theorem refresh_writes_only_the_access_token (s : State)
    (events : list Event) (posted : Settled) (ls : Storage) :
  (∀ id cfg error response,
     tasks s !! id = Some (Refreshing cfg error) →
     nullish (resp_data response) = false →
     localStorage (world (step s (RefreshResponse id (Ok response))))
     = <[storageKeys.accessToken :=
           js_to_string (opt_get (resp_data response) "access")]>
         (localStorage (world s)))
  ∧ (forallb refresh_succeeds events = true →
     localStorage (world (run s events)) !! storageKeys.refreshToken
     = localStorage (world s) !! storageKeys.refreshToken
     ∧ localStorage (world (run s events)) !! storageKeys.user
       = localStorage (world s) !! storageKeys.user
     ∧ ∀ k, k ≠ storageKeys.accessToken →
         localStorage (world (run s events)) !! k
         = localStorage (world s) !! k)
  ∧ (∀ access ls',
     AuthService.refreshToken_resume posted ls = (Fulfilled access, ls') →
     ls' = <[storageKeys.accessToken := js_to_string access]> ls
     ∧ ls' !! storageKeys.refreshToken = ls !! storageKeys.refreshToken
     ∧ ls' !! storageKeys.user = ls !! storageKeys.user
     ∧ ∀ k, k ≠ storageKeys.accessToken → ls' !! k = ls !! k).
Proof.
  split; [|split].
  - intros id cfg error response Ht Hn. simpl. rewrite Ht.
    unfold refresh_settled. rewrite Hn. by unfold_handlers.
  - intros He.
    split; [by apply run_writes_access_token_only|].
    split; [by apply run_writes_access_token_only|].
    intros k Hk. by apply run_writes_access_token_only.
  - intros access ls' Hr. unfold AuthService.refreshToken_resume in Hr.
    destruct posted as [response|e]; [|done].
    destruct (nullish response); [done|].
    inversion Hr; subst. unfold setItem.
    split; [done|]. split; [by rewrite lookup_insert_ne|].
    split; [by rewrite lookup_insert_ne|].
    intros k Hk. by rewrite lookup_insert_ne.
Qed.

Lemma refresh_writes_only_the_access_token_witness :
  localStorage
    (world
       (run (start {[ storageKeys.accessToken := "a1";
                      storageKeys.refreshToken := "r1";
                      storageKeys.user := "{}" ]} ∅)
          [ Request 0 "/api/v1/documents/";
            Response 0
              (Err (mkError (JStr "Request failed with status code 401")
                      (JStr "ERR_BAD_REQUEST")
                      (Some (mkResponse 401 JUndefined))));
            RefreshResponse 0
              (Ok (mkResponse 200 (JObj [("access", JStr "a2")])));
            Response 0 (Ok (mkResponse 200 (JObj []))) ]))
    !! storageKeys.refreshToken
  = localStorage
      (world (start {[ storageKeys.accessToken := "a1";
                       storageKeys.refreshToken := "r1";
                       storageKeys.user := "{}" ]} ∅))
      !! storageKeys.refreshToken.
Proof.
  refine (proj1 (proj1 (proj2 (refresh_writes_only_the_access_token
                   _ _ (Fulfilled JNull) ∅)) _)).
  reflexivity.
Defined.

(* ===================================================================== *)
(** * Part III: further properties of the same code                       *)
(* ===================================================================== *)

(** ** The cache, continued *)

(** X1: the operations of [RequestCache] act on one key. What [get]
    returns for a key is not changed by a [set] or a [delete] of another
    key, and a [get], which may evict, leaves the entries of the other keys
    in place. *)
Theorem cache_operations_act_on_one_key (now t0 : Z) (key other : string)
    (data : JsVal) (ttl : option Z) (cache : Cache) :
  key ≠ other →
  (RequestCache.get now other (RequestCache.set t0 key data ttl cache)).1
  = (RequestCache.get now other cache).1
  ∧ (RequestCache.get now other (RequestCache.delete key cache)).1
    = (RequestCache.get now other cache).1
  ∧ (RequestCache.get now key cache).2 !! other = cache !! other.
Proof.
  intros Hne. unfold RequestCache.get, RequestCache.set, RequestCache.delete.
  rewrite lookup_insert_ne, lookup_delete_ne by done.
  split; [|split].
  - destruct (cache !! other) as [item|]; [|done]. by destruct (_ >? _)%Z.
  - destruct (cache !! other) as [item|]; [|done]. by destruct (_ >? _)%Z.
  - destruct (cache !! key) as [item|]; [|done].
    destruct (_ >? _)%Z; [|done]. simpl. by rewrite lookup_delete_ne.
Qed.

Lemma cache_operations_act_on_one_key_witness :
  (RequestCache.get 1500 "/api/v1/tags/_{}"
     (RequestCache.set 1200 "/api/v1/documents/_{}" (JStr "docs") None
        {[ "/api/v1/tags/_{}" := mkItem (JStr "tags") 1000 1000 ]})).1
  = (RequestCache.get 1500 "/api/v1/tags/_{}"
       {[ "/api/v1/tags/_{}" := mkItem (JStr "tags") 1000 1000 ]}).1.
Proof.
  refine (proj1 (cache_operations_act_on_one_key 1500 1200
                   "/api/v1/documents/_{}" "/api/v1/tags/_{}" (JStr "docs")
                   None _ _)).
  discriminate.
Defined.

(** X2: invalidation. After [deleteCache(url, params)] the lookup of that
    URL and parameters misses at every time, whatever the ttl of the entry
    was, and the next [cachedApiService.get] for it goes to the network;
    after [clearCache] this holds for every key. *)
Theorem invalidated_entries_are_fetched_again (now1 now2 : Z)
    (url params key : string) (o : CacheOptions) (fetched : Settled)
    (cache : Cache) :
  (RequestCache.get now1 (cacheKey url params)
     (cachedApiService.deleteCache url params cache)).1 = JNull
  ∧ run_fetched
      (cachedApiService.get now1 now2 (cacheKey url params) o fetched
         (cachedApiService.deleteCache url params cache)) = true
  ∧ RequestCache.get now1 key (cachedApiService.clearCache cache) = (JNull, ∅)
  ∧ run_fetched
      (cachedApiService.get now1 now2 key o fetched
         (cachedApiService.clearCache cache)) = true.
Proof.
  assert (∀ k (c : Cache), c !! k = None →
            run_fetched (cachedApiService.get now1 now2 k o fetched c) = true)
    as Hmiss.
  { intros k c Hk. unfold cachedApiService.get, cachedApiService.get_lookup.
    rewrite get_absent by done.
    destruct (cache_enabled o); simpl; by destruct fetched. }
  unfold cachedApiService.deleteCache, cachedApiService.clearCache,
    RequestCache.delete, RequestCache.clear.
  split; [by rewrite get_absent by apply lookup_delete_eq|].
  split; [apply Hmiss, lookup_delete_eq|].
  split; [by rewrite get_absent by apply lookup_empty|].
  apply Hmiss, lookup_empty.
Qed.

(** X3: when [cachedApiService.get] goes to the network and when it does
    not. The call is answered from the cache, without a network call,
    exactly when caching is not disabled and the key has an entry that has
    not expired and whose payload is truthy; the payload is then returned
    and the cache is left as it is. In every other case (caching disabled,
    no entry, an expired entry, or a cached payload that is falsy such as
    [0], the empty string, [false] or [null]) the network call is made and
    its outcome, value or error, is what the caller gets. *)
Theorem get_is_served_from_cache_iff (now1 now2 : Z) (key : string)
    (o : CacheOptions) (fetched : Settled) (cache : Cache) :
  (run_fetched (cachedApiService.get now1 now2 key o fetched cache) = false
   ↔ cache_enabled o = true
     ∧ ∃ item, cache !! key = Some item
               ∧ (now1 ≤ item_timestamp item + item_ttl item)%Z
               ∧ truthy (item_data item) = true)
  ∧ (∀ item,
     cache_enabled o = true → cache !! key = Some item →
     (now1 ≤ item_timestamp item + item_ttl item)%Z →
     truthy (item_data item) = true →
     cachedApiService.get now1 now2 key o fetched cache
     = mkGetRun (Fulfilled (item_data item)) cache false)
  ∧ (run_fetched (cachedApiService.get now1 now2 key o fetched cache) = true →
     run_result (cachedApiService.get now1 now2 key o fetched cache)
     = fetched).
Proof.
  assert (∀ c, (cachedApiService.get_resume now2 key o fetched c).1 = fetched)
    as Hres by (intros c; by destruct fetched).
  unfold cachedApiService.get, cachedApiService.get_lookup, RequestCache.get.
  destruct (cache_enabled o) eqn:He.
  - destruct (cache !! key) as [item|] eqn:Hk.
    + destruct (Z.gtb_spec (now1 - item_timestamp item) (item_ttl item)).
      * simpl. destruct (cachedApiService.get_resume _ _ _ _ _) eqn:Hr.
        simpl. split; [|split].
        -- split; [done|]. intros (_ & item' & [= <-] & ? & _). lia.
        -- intros item' _ [= <-] ? _. lia.
        -- intros _. by rewrite <- (Hres (delete key cache)), Hr.
      * destruct (truthy (item_data item)) eqn:Ht; simpl.
        -- split; [|split]; [|by intros item' _ [= <-] _ _|done].
           split; [|done]. intros _. split; [done|].
           exists item. repeat split; [lia|done].
        -- destruct (cachedApiService.get_resume _ _ _ _ _) eqn:Hr.
           simpl. split; [|split].
           ++ split; [done|]. intros (_ & item' & [= <-] & _ & ?). congruence.
           ++ intros item' _ [= <-] _ ?. congruence.
           ++ intros _. by rewrite <- (Hres cache), Hr.
    + simpl. destruct (cachedApiService.get_resume _ _ _ _ _) eqn:Hr.
      simpl. split; [|split].
      * split; [done|]. by intros (_ & item' & ? & _).
      * by intros item' _ ?.
      * intros _. by rewrite <- (Hres cache), Hr.
  - destruct (cachedApiService.get_resume _ _ _ _ _) eqn:Hr.
    simpl. split; [|split].
    + split; [done|]. by intros [? _].
    + by intros item' ?.
    + intros _. by rewrite <- (Hres cache), Hr.
Qed.

Lemma get_is_served_from_cache_iff_witness :
  cachedApiService.get 1100 1200 "/api/v1/tags/_{}" (mkOpts None None)
    (Fulfilled (JStr "other"))
    {[ "/api/v1/tags/_{}" := mkItem (JStr "tags") 1000 300000 ]}
  = mkGetRun (Fulfilled (JStr "tags"))
      {[ "/api/v1/tags/_{}" := mkItem (JStr "tags") 1000 300000 ]} false.
Proof.
  refine (proj1 (proj2 (get_is_served_from_cache_iff 1100 1200
                          "/api/v1/tags/_{}" (mkOpts None None)
                          (Fulfilled (JStr "other")) _))
            (mkItem (JStr "tags") 1000 300000) _ _ _ _);
    [reflexivity | reflexivity | simpl; lia | reflexivity].
Defined.

Lemma get_hit now1 now2 key o fetched (cache : Cache) item :
  cache_enabled o = true → cache !! key = Some item →
  (now1 ≤ item_timestamp item + item_ttl item)%Z →
  truthy (item_data item) = true →
  cachedApiService.get now1 now2 key o fetched cache
  = mkGetRun (Fulfilled (item_data item)) cache false.
Proof.
  intros He Hk Hle Ht.
  unfold cachedApiService.get, cachedApiService.get_lookup.
  by rewrite He, (get_fresh now1 key cache item), Ht.
Qed.

Lemma get_stores_fetched_payload t t0 key o data (cache : Cache) :
  cache_enabled o = true →
  run_fetched (cachedApiService.get t t0 key o (Fulfilled data) cache) = true →
  run_cache (cachedApiService.get t t0 key o (Fulfilled data) cache) !! key
  = Some (mkItem data t0 (default RequestCache.default_ttl (opt_ttl o))).
Proof.
  intros He. unfold cachedApiService.get.
  destruct (cachedApiService.get_lookup t key o cache) as [[?|?] c1];
    [done|]. simpl. rewrite He. intros _.
  unfold RequestCache.set. apply lookup_insert_eq.
Qed.

(** X4: two calls for the same key. When a call has fetched a truthy
    payload and stored it at time [t0], every later call for the key with
    caching enabled, made no later than [t0 + ttl] ([ttl] being the
    [ttl] option of the first call, 5 minutes when it gave none), returns
    that payload without a network call and leaves the cache as it is. *)
Theorem second_get_within_ttl_makes_no_call (t t0 now1 now2 : Z)
    (key : string) (o o' : CacheOptions) (data : JsVal) (fetched : Settled)
    (cache : Cache) :
  cache_enabled o = true → cache_enabled o' = true →
  truthy data = true →
  run_fetched (cachedApiService.get t t0 key o (Fulfilled data) cache) = true →
  (now1 ≤ t0 + default 300000 (opt_ttl o))%Z →
  cachedApiService.get now1 now2 key o' fetched
    (run_cache (cachedApiService.get t t0 key o (Fulfilled data) cache))
  = mkGetRun (Fulfilled data)
      (run_cache (cachedApiService.get t t0 key o (Fulfilled data) cache))
      false.
Proof.
  intros He He' Ht Hf Hle.
  apply (get_hit now1 now2 key o' fetched _
           (mkItem data t0 (default RequestCache.default_ttl (opt_ttl o))));
    [done | by apply get_stores_fetched_payload | exact Hle | done].
Qed.

Lemma second_get_within_ttl_makes_no_call_witness :
  cachedApiService.get 301100 301200 "/api/v1/tags/_{}" (mkOpts None None)
    (RejectedWith (JStr "Network Error"))
    (run_cache
       (cachedApiService.get 1000 1100 "/api/v1/tags/_{}" (mkOpts None None)
          (Fulfilled (JStr "tags")) ∅))
  = mkGetRun (Fulfilled (JStr "tags"))
      (run_cache
         (cachedApiService.get 1000 1100 "/api/v1/tags/_{}" (mkOpts None None)
            (Fulfilled (JStr "tags")) ∅))
      false.
Proof.
  apply second_get_within_ttl_makes_no_call;
    [reflexivity | reflexivity | reflexivity | reflexivity | simpl; lia].
Defined.

(** ** [retry] and [batch], continued *)

Lemma sum_backoff delay n :
  foldr Z.add 0%Z (map (backoff delay 0) (seq 0 n))
  = (delay * (2 ^ Z.of_nat n - 1))%Z.
Proof.
  induction n as [|n IH]; [simpl; lia|].
  rewrite seq_S, map_app, foldr_app. cbn [map foldr].
  assert (∀ (l : list Z) a, foldr Z.add a l = (foldr Z.add 0 l + a)%Z) as Hacc.
  { induction l as [|x l IHl]; intros a; simpl; [lia|]. rewrite IHl. lia. }
  rewrite Hacc, IH. unfold backoff.
  rewrite Nat2Z.inj_succ, Z.pow_succ_r by lia.
  replace (0 + Z.of_nat (0 + n))%Z with (Z.of_nat n) by lia. ring.
Qed.

(** X5: the time slept when every attempt fails. With [maxRetries >= 0]
    and an operation that fails [maxRetries + 1] times, [retry] sleeps
    [maxRetries] times, not after the last failure, and
    [delay * (2^maxRetries - 1)] in all. *)
Theorem retry_total_delay_when_exhausted (request : nat → Settled)
    (maxRetries delay : Z) :
  (0 ≤ maxRetries)%Z →
  (∀ j, (Z.of_nat j ≤ maxRetries)%Z → is_rejected (request j) = true) →
  length (retry_delays
            (ApiService.retry request (Some maxRetries) (Some delay)))
  = Z.to_nat maxRetries
  ∧ total_delay (ApiService.retry request (Some maxRetries) (Some delay))
    = (delay * (2 ^ maxRetries - 1))%Z.
Proof.
  intros Hpos Hfail. unfold total_delay, ApiService.retry,
    ApiService.retry_with. simpl.
  destruct (retry_loop_trace request maxRetries delay
              (Z.to_nat (maxRetries + 1)) 0%Z JUndefined 0 [])
    as (m & _ & _ & Hc & Hd); [lia | f_equal; lia |].
  destruct (retry_loop_exhausted request maxRetries delay
              (Z.to_nat (maxRetries + 1)) 0%Z JUndefined 0 [])
    as [Hc' _]; [f_equal; lia | intros j Hj; apply Hfail; lia |].
  simpl in *. rewrite Hc' in Hc. subst m.
  rewrite Hd.
  replace (pred (Z.to_nat (maxRetries + 1))) with (Z.to_nat maxRetries) by lia.
  rewrite length_map, length_seq, sum_backoff, Z2Nat.id by lia. done.
Qed.

Lemma retry_total_delay_when_exhausted_witness :
  total_delay
    (ApiService.retry (λ _, RejectedWith (JStr "ECONNRESET"))
       (Some 3%Z) (Some 1000%Z))
  = (1000 * (2 ^ 3 - 1))%Z.
Proof.
  refine (proj2 (retry_total_delay_when_exhausted
                   (λ _, RejectedWith (JStr "ECONNRESET")) 3 1000 _ _)).
  - lia.
  - reflexivity.
Defined.

(** X6: a negative [maxRetries]. The operation is never invoked, nothing
    is slept, and what [retry] throws is [undefined], the initial value of
    [lastError], whatever the operation would have done. *)
Theorem retry_with_negative_maxRetries_throws_undefined
    (request : nat → Settled) (maxRetries : Z) (delay : option Z) :
  (maxRetries < 0)%Z →
  ApiService.retry request (Some maxRetries) delay
  = mkRetryRun (RejectedWith JUndefined) 0 [].
Proof.
  intros Hneg. unfold ApiService.retry, ApiService.retry_with. simpl.
  rewrite retry_loop_eq. destruct (decide _); [lia|done].
Qed.

Lemma retry_with_negative_maxRetries_throws_undefined_witness :
  ApiService.retry (λ _, Fulfilled (JNum 1)) (Some (-1)%Z) None
  = mkRetryRun (RejectedWith JUndefined) 0 [].
Proof.
  apply retry_with_negative_maxRetries_throws_undefined. lia.
Defined.

Lemma map_results_inl results : ∀ index values logged,
  ApiService.map_results index results = (inl values, logged) →
  results = map Fulfilled values ∧ logged = [].
Proof.
  induction results as [|[v|e] results IH]; intros index values logged H;
    simpl in H.
  - by inversion H.
  - destruct (ApiService.map_results (S index) results) as [[vs|r] lg] eqn:Hm;
      [|done].
    inversion H; subst. destruct (IH _ _ _ Hm) as [-> ->]. done.
  - done.
Qed.

(** The outcomes are all fulfilled, with the given values, when each
    promise is. *)
Lemma outcomes_all_fulfilled {St : Type} (promises : list (St → Settled * St))
    (schedule : list nat) (st : St) (values : list JsVal) :
  outcomes promises schedule st = map Fulfilled values
  ↔ length values = length promises
    ∧ ∀ i promise, promises !! i = Some promise →
        ∃ v, values !! i = Some v
             ∧ (promise (settled_state promises (before i schedule) st)).1
               = Fulfilled v.
Proof.
  unfold outcomes. split.
  - intros Heq. split.
    + apply (f_equal length) in Heq. by rewrite length_imap, length_map in Heq.
    + intros i promise Hp. apply (f_equal (λ l, l !! i)) in Heq.
      rewrite list_lookup_imap, Hp in Heq. simpl in Heq.
      change (map Fulfilled values) with (Fulfilled <$> values) in Heq.
      rewrite list_lookup_fmap in Heq.
      destruct (values !! i) as [v|]; [|done]. simpl in Heq.
      exists v. split; [done|]. congruence.
  - intros [Hlen Hall]. apply list_eq. intros i.
    change (map Fulfilled values) with (Fulfilled <$> values).
    rewrite list_lookup_imap, list_lookup_fmap.
    destruct (promises !! i) as [promise|] eqn:Hp; simpl.
    + destruct (Hall i promise Hp) as (v & -> & ->). done.
    + apply lookup_ge_None in Hp. rewrite (lookup_ge_None_2 values i) by lia.
      done.
Qed.

(** X7: [batch] returns an array exactly when every operation was
    fulfilled. When each operation returns a promise and every promise
    settles, in whatever order, [batch] returns the array [values] if and
    only if every promise was fulfilled, the promise of index [i] with the
    value [values[i]]; the array then has one value per operation and
    nothing has been logged. *)
Theorem batch_returns_iff_all_fulfilled {St : Type}
    (requests : list (@ApiService.Operation St))
    (promises : list (St → Settled * St)) (schedule : list nat) (st : St)
    (values : list JsVal) :
  length promises = length requests →
  (∀ i request, requests !! i = Some request →
     ∃ promise, promises !! i = Some promise
       ∧ (request (started_state (take i requests) st)).1
         = Promised promise) →
  schedule ≡ₚ seq 0 (length requests) →
  (batch_result (ApiService.batch requests schedule st) = Some (inl values)
   ↔ length values = length requests
     ∧ ∀ i promise, promises !! i = Some promise →
         ∃ v, values !! i = Some v
              ∧ (promise (settled_state promises (before i schedule)
                            (started_state requests st))).1
                = Fulfilled v)
  ∧ (batch_result (ApiService.batch requests schedule st) = Some (inl values) →
     batch_logged (ApiService.batch requests schedule st) = []).
Proof.
  intros Hlen Hp Hperm.
  rewrite (batch_of_promises requests promises schedule st Hlen Hp Hperm).
  simpl. rewrite <- Hlen, <- outcomes_all_fulfilled.
  destruct (ApiService.map_results 0 _) as [r logged] eqn:Hmap. simpl.
  split; [split|].
  - intros [= ->]. by destruct (map_results_inl _ _ _ _ Hmap).
  - intros Ho. rewrite Ho, map_results_all_fulfilled in Hmap. congruence.
  - intros [= ->]. by destruct (map_results_inl _ _ _ _ Hmap).
Qed.

Lemma batch_returns_iff_all_fulfilled_witness :
  batch_logged
    (ApiService.batch
       [ (λ n : nat, (Promised (λ m, (Fulfilled (JNum 1), S m)), S n));
         (λ n : nat, (Promised (λ m, (Fulfilled (JNum 2), S m)), S n)) ]
       [1; 0] 0) = [].
Proof.
  refine (proj2 (batch_returns_iff_all_fulfilled
                   [ (λ n : nat, (Promised (λ m, (Fulfilled (JNum 1), S m)), S n));
                     (λ n : nat, (Promised (λ m, (Fulfilled (JNum 2), S m)), S n)) ]
                   [ (λ m, (Fulfilled (JNum 1), S m));
                     (λ m, (Fulfilled (JNum 2), S m)) ]
                   [1; 0] 0 [JNum 1; JNum 2] _ _ _) _).
  - reflexivity.
  - intros [|[|i]] request; simpl; intros [= <-]; eexists; split; reflexivity.
  - simpl. apply (bool_decide_unpack ([1; 0] ≡ₚ [0; 1])). vm_compute. exact I.
  - reflexivity.
Defined.

(** ** The interceptors, continued *)

(** X8: every dispatch carries the access token that is stored when it is
    made. A new request (whose caller set no such header) is sent with
    [Authorization: Bearer <token>] when a non-empty access token is
    stored and with no such header otherwise.
    The replay after a successful refresh is sent with the token the
    refresh call returned, which is also the token then in storage, and
    it is the same request, marked as retried. *)
Theorem dispatches_carry_the_stored_token (s : State) (id : nat)
    (url : string) (cfg : RequestConfig) (error : AxiosError)
    (response : AxiosResponse) :
  (tasks s !! id = None →
   network (world (step s (Request id url)))
   = network (world s)
     ++ [NetRequest id
           (mkConfig url false
              (if truthy (AuthService.getAccessToken (localStorage (world s)))
               then Some ("Bearer "
                          +:+ js_to_string
                                (AuthService.getAccessToken
                                   (localStorage (world s))))
               else None))])
  ∧ (tasks s !! id = Some (Refreshing cfg error) →
     nullish (resp_data response) = false →
     network (world (step s (RefreshResponse id (Ok response))))
     = network (world s)
       ++ [NetRequest id
             (mkConfig (cfg_url cfg) (cfg_retry cfg)
                (Some ("Bearer "
                       +:+ js_to_string
                             (opt_get (resp_data response) "access"))))]
     ∧ AuthService.getAccessToken
         (localStorage (world (step s (RefreshResponse id (Ok response)))))
       = JStr (js_to_string (opt_get (resp_data response) "access"))).
Proof.
  split.
  - intros Ht. simpl. rewrite Ht. unfold_handlers.
    unfold request_interceptor, AuthService.getAccessToken. simpl.
    by destruct (truthy _).
  - intros Ht Hn. simpl. rewrite Ht. unfold refresh_settled. rewrite Hn.
    unfold_handlers.
    unfold request_interceptor, AuthService.getAccessToken, getItem, setItem.
    simpl. rewrite lookup_insert_eq. by destruct (truthy _).
Qed.

Lemma dispatches_carry_the_stored_token_witness :
  network
    (world (step (start {[ storageKeys.accessToken := "a1" ]} ∅)
              (Request 0 "/api/v1/documents/")))
  = [NetRequest 0 (mkConfig "/api/v1/documents/" false (Some "Bearer a1"))].
Proof.
  refine (proj1 (dispatches_carry_the_stored_token
                   (start {[ storageKeys.accessToken := "a1" ]} ∅) 0
                   "/api/v1/documents/" (mkConfig "" false None)
                   (mkError JUndefined JUndefined None)
                   (mkResponse 200 JNull)) _).
  reflexivity.
Defined.

(** X9: only a 401 starts a refresh. A request whose call fails with any
    other status, or below HTTP, is rejected at once with the normalized
    error: no call is made, and storage, the cache and the location of the
    page stay as they are. *)
Theorem other_errors_are_rejected_at_once (s : State) (id : nat)
    (cfg : RequestConfig) (error : AxiosError) :
  tasks s !! id = Some (Sent cfg) →
  is_401 error = false →
  tasks (step s (Response id (Err error))) !! id
  = Some (Rejected (apiError error))
  ∧ network (world (step s (Response id (Err error)))) = network (world s)
  ∧ localStorage (world (step s (Response id (Err error))))
    = localStorage (world s)
  ∧ requestCache (world (step s (Response id (Err error))))
    = requestCache (world s)
  ∧ location_href (world (step s (Response id (Err error))))
    = location_href (world s).
Proof.
  intros Ht H401. simpl. rewrite Ht. unfold response_rejected.
  rewrite H401. unfold_handlers. by rewrite lookup_insert_eq.
Qed.

Lemma other_errors_are_rejected_at_once_witness :
  tasks
    (step (run (start {[ storageKeys.refreshToken := "r1" ]} ∅)
             [ Request 0 "/api/v1/documents/" ])
       (Response 0 (Err (mkError (JStr "Network Error") (JStr "ERR_NETWORK")
                           None)))) !! 0
  = Some (Rejected
            (apiError (mkError (JStr "Network Error") (JStr "ERR_NETWORK")
                         None))).
Proof.
  refine (proj1 (other_errors_are_rejected_at_once _ 0
                   (mkConfig "/api/v1/documents/" false None) _ _ _));
    reflexivity.
Defined.

Lemma put_task id r s : tasks (put id r s) !! id = Some r.2.
Proof. unfold put. simpl. apply lookup_insert_eq. Qed.

Lemma settled_stays s id e :
  is_settled (tasks s !! id) = true →
  is_settled (tasks (step s e) !! id) = true.
Proof.
  intros H. destruct (settled_is_final s id e) as [-> _]; [|done].
  destruct (tasks s !! id) as [[| | |]|]; try done; eauto.
Qed.

Lemma first_delivery s id cfg o :
  tasks s !! id = Some (Sent cfg) →
  is_settled (tasks (step s (Response id o)) !! id) = true
  ∨ ∃ cfg' error,
      tasks (step s (Response id o)) !! id = Some (Refreshing cfg' error).
Proof.
  intros Ht. unfold step. rewrite Ht.
  destruct o as [r|error]; rewrite put_task; [by left|].
  unfold response_rejected, reject_normalized.
  destruct (is_401 error && negb (cfg_retry cfg)); [|by left].
  destruct (truthy _); [right; eauto | by left].
Qed.

Lemma second_delivery s id cfg error o :
  tasks s !! id = Some (Refreshing cfg error) →
  is_settled (tasks (step s (RefreshResponse id o)) !! id) = true
  ∨ ∃ cfg',
      tasks (step s (RefreshResponse id o)) !! id = Some (Sent cfg')
      ∧ cfg_retry cfg' = cfg_retry cfg.
Proof.
  intros Ht. unfold step. rewrite Ht, put_task.
  unfold refresh_settled, refresh_catch, reject_normalized.
  destruct o as [r|e]; [destruct (nullish (resp_data r))|];
    [by left| |by left].
  right. unfold instance. simpl. eexists. split; [done|].
  by rewrite request_interceptor_retry.
Qed.

Lemma replay_delivery s id cfg o :
  tasks s !! id = Some (Sent cfg) → cfg_retry cfg = true →
  is_settled (tasks (step s (Response id o)) !! id) = true.
Proof.
  intros Ht Hr. unfold step. rewrite Ht.
  destruct o as [r|error]; rewrite put_task; [done|].
  unfold response_rejected. by rewrite Hr, andb_false_r.
Qed.

(** X10: a request settles within three deliveries. From the moment it is
    dispatched, the settling of its call, of the refresh call if one is
    made, and of the replay if one is made, leave the request resolved or
    rejected, however each of them turns out. *)
Theorem request_settles_within_three_deliveries (ls : Storage)
    (cache : Cache) (events : list Event) (id : nat) (cfg : RequestConfig)
    (o1 o2 o3 : Outcome) :
  tasks (run (start ls cache) events) !! id = Some (Sent cfg) →
  is_settled
    (tasks (run (run (start ls cache) events)
              [Response id o1; RefreshResponse id o2; Response id o3])
       !! id) = true.
Proof.
  intros Ht. rewrite !run_cons. change (run ?x []) with x.
  pose proof (run_accounted events _ id (start_accounted ls cache id)) as Hacc.
  set (s := run (start ls cache) events) in *.
  destruct (first_delivery s id cfg o1 Ht) as [H1 | (cfg1 & error & H1)];
    [by do 2 apply settled_stays|].
  pose proof (step_accounted s (Response id o1) id Hacc) as Hacc1.
  unfold accounted in Hacc1. rewrite H1 in Hacc1. destruct Hacc1 as [Hr1 _].
  destruct (second_delivery _ id cfg1 error o2 H1) as [H2 | (cfg2 & H2 & Hr2)];
    [by apply settled_stays|].
  apply (replay_delivery _ id cfg2); [done | congruence].
Qed.

Lemma request_settles_within_three_deliveries_witness :
  is_settled
    (tasks
       (run (run (start {[ storageKeys.refreshToken := "r1" ]} ∅)
               [ Request 0 "/api/v1/documents/" ])
          [ Response 0
              (Err (mkError (JStr "Request failed with status code 401")
                      (JStr "ERR_BAD_REQUEST")
                      (Some (mkResponse 401 JUndefined))));
            RefreshResponse 0
              (Ok (mkResponse 200 (JObj [("access", JStr "a2")])));
            Response 0
              (Err (mkError (JStr "Request failed with status code 401")
                      (JStr "ERR_BAD_REQUEST")
                      (Some (mkResponse 401 JUndefined)))) ]) !! 0)
  = true.
Proof.
  apply (request_settles_within_three_deliveries _ _ _ 0
           (mkConfig "/api/v1/documents/" false None)).
  reflexivity.
Defined.

Lemma credential_key_false k :
  credential_key k = false →
  k ≠ storageKeys.accessToken ∧ k ≠ storageKeys.refreshToken
  ∧ k ≠ storageKeys.user.
Proof.
  unfold credential_key. intros H.
  apply orb_false_iff in H as [H Hu]. apply orb_false_iff in H as [Ha Hr].
  by rewrite !String.eqb_neq in *.
Qed.

Lemma clearLocalStorage_other (ls : Storage) k :
  credential_key k = false →
  AuthService.clearLocalStorage ls !! k = ls !! k.
Proof.
  intros H. apply credential_key_false in H as (Ha & Hr & Hu).
  unfold AuthService.clearLocalStorage, removeItem.
  by rewrite !lookup_delete_ne.
Qed.

(** X11: the interceptors keep to their three keys. Over every sequence
    of events, failed refreshes included, every [localStorage] key other
    than the access token, the refresh token and the user snapshot (the
    theme, the language, the preferences, the search history) keeps its
    value. *)
Theorem interceptors_keep_to_the_credential_keys (s : State)
    (events : list Event) (k : string) :
  credential_key k = false →
  localStorage (world (run s events)) !! k = localStorage (world s) !! k.
Proof.
  intros Hk. revert s. induction events as [|e events IH]; intros s; [done|].
  rewrite run_cons, IH.
  destruct (step_spec s e) as [-> | Hd]; [done|].
  destruct (delivers_storage s e _ Hd)
    as [-> | [(id & r & _ & _ & ->) | (id & o & _ & _ & ->)]]; [done| |].
  - unfold setItem. rewrite lookup_insert_ne; [done|].
    apply credential_key_false in Hk as (Ha & _). congruence.
  - by apply clearLocalStorage_other.
Qed.

Lemma interceptors_keep_to_the_credential_keys_witness :
  localStorage
    (world
       (run (start {[ "kb_theme" := "dark"; storageKeys.refreshToken := "r1" ]}
               ∅)
          [ Request 0 "/api/v1/documents/";
            Response 0
              (Err (mkError (JStr "Request failed with status code 401")
                      (JStr "ERR_BAD_REQUEST")
                      (Some (mkResponse 401 JUndefined))));
            RefreshResponse 0
              (Err (mkError (JStr "Network Error") (JStr "ERR_NETWORK")
                      None)) ]))
    !! "kb_theme"
  = localStorage
      (world (start {[ "kb_theme" := "dark";
                       storageKeys.refreshToken := "r1" ]} ∅))
      !! "kb_theme".
Proof.
  apply interceptors_keep_to_the_credential_keys. reflexivity.
Defined.

Lemma delivers_balanced s e s' id :
  delivers s e s' → accounted id s →
  refreshes_of id s ≤ requests_of id s ≤ refreshes_of id s + 1 →
  refreshes_of id s' ≤ requests_of id s' ≤ refreshes_of id s' + 1.
Proof.
  intros Hd. unfold accounted, requests_of, refreshes_of.
  destruct Hd as [id' url Ht | id' cfg r Ht | id' cfg error Ht H401 Hr Hrt
                 | id' cfg error Ht Hc | id' cfg error r Ht Hn
                 | id' cfg error o Ht Hf];
    unfold_handlers; rewrite ?count_app; simpl;
    (destruct (decide (id' = id)) as [->|Hne];
     [ rewrite Ht, ?Nat.eqb_refl
     | rewrite ?eqb_other by done; intros _; lia ]);
    try rewrite Hr; lia.
Qed.

Lemma run_balanced events : ∀ s id,
  accounted id s →
  refreshes_of id s ≤ requests_of id s ≤ refreshes_of id s + 1 →
  refreshes_of id (run s events) ≤ requests_of id (run s events)
  ≤ refreshes_of id (run s events) + 1.
Proof.
  induction events as [|e events IH]; intros s id Hacc Hb; [done|].
  rewrite run_cons. apply IH; [by apply step_accounted|].
  destruct (step_spec s e) as [-> | Hd]; [done|].
  by apply (delivers_balanced s e).
Qed.

(** X12: dispatches and refresh calls of one request go hand in hand.
    Over every sequence of events from a fresh page, a refresh call is
    made only for a request that has been dispatched, and a request is
    dispatched again only after a refresh call was made for it: the
    dispatches of a request number its refresh calls, or one more. *)
Theorem replays_follow_refresh_calls (ls : Storage) (cache : Cache)
    (events : list Event) (id : nat) :
  refreshes_of id (run (start ls cache) events)
  ≤ requests_of id (run (start ls cache) events)
  ≤ refreshes_of id (run (start ls cache) events) + 1.
Proof.
  apply run_balanced; [apply start_accounted|].
  unfold requests_of, refreshes_of. simpl. unfold count. simpl. lia.
Qed.

(** ** [AuthService], continued *)

Lemma isAuthenticated_without_user (ls : Storage) :
  ls !! storageKeys.user = None → AuthService.isAuthenticated ls = false.
Proof.
  intros Hu. unfold AuthService.isAuthenticated, getItem. rewrite Hu.
  simpl. apply andb_false_r.
Qed.

Lemma clearLocalStorage_keys (ls : Storage) :
  AuthService.clearLocalStorage ls !! storageKeys.accessToken = None
  ∧ AuthService.clearLocalStorage ls !! storageKeys.refreshToken = None
  ∧ AuthService.clearLocalStorage ls !! storageKeys.user = None.
Proof.
  unfold AuthService.clearLocalStorage, removeItem.
  split; [|split].
  - rewrite !lookup_delete_ne by done. apply lookup_delete_eq.
  - rewrite lookup_delete_ne by done. apply lookup_delete_eq.
  - apply lookup_delete_eq.
Qed.

(** X13: [login] stores credentials only for a response that carries an
    access token. When the post is rejected, or its body has no truthy
    [access], the storage is left exactly as it was. Otherwise the three
    keys hold the access token, the refresh token and the serialised
    user of the response, every other key is unchanged, and if the access
    token and the serialised user are non-empty strings the client is
    authenticated and [getLocalUser] gives back what parsing that string
    gives. *)
Theorem login_stores_the_credentials_of_the_response
    (JSON_stringify : JsVal → JsVal) (JSON_parse : string → option JsVal)
    (posted : Settled) (ls : Storage) :
  ((∀ response, posted = Fulfilled response →
      truthy (opt_get response "access") = false) →
   (AuthService.login_resume JSON_stringify posted ls).2 = ls)
  ∧ (∀ response,
     posted = Fulfilled response →
     truthy (opt_get response "access") = true →
     AuthService.login_resume JSON_stringify posted ls
     = (Fulfilled response,
        (AuthService.login_resume JSON_stringify posted ls).2)
     ∧ AuthService.getAccessToken
         (AuthService.login_resume JSON_stringify posted ls).2
       = JStr (js_to_string (opt_get response "access"))
     ∧ AuthService.getRefreshToken
         (AuthService.login_resume JSON_stringify posted ls).2
       = JStr (js_to_string (opt_get response "refresh"))
     ∧ (AuthService.login_resume JSON_stringify posted ls).2
         !! storageKeys.user
       = Some (js_to_string (JSON_stringify (opt_get response "user")))
     ∧ (∀ k, credential_key k = false →
          (AuthService.login_resume JSON_stringify posted ls).2 !! k
          = ls !! k)
     ∧ (∀ a u parsed,
          opt_get response "access" = JStr a →
          js_to_string (JSON_stringify (opt_get response "user")) = u →
          u ≠ "" → JSON_parse u = Some parsed →
          AuthService.isAuthenticated
            (AuthService.login_resume JSON_stringify posted ls).2 = true
          ∧ AuthService.getLocalUser JSON_parse
              (AuthService.login_resume JSON_stringify posted ls).2
            = parsed)).
Proof.
  split.
  - intros Hno. unfold AuthService.login_resume.
    destruct posted as [response|e]; [|done].
    destruct (nullish response); [done|]. by rewrite (Hno response).
  - intros response -> Hacc. unfold AuthService.login_resume.
    assert (nullish response = false) as ->.
    { destruct response; try done; simpl in Hacc; done. }
    rewrite Hacc. simpl.
    unfold AuthService.getAccessToken, AuthService.getRefreshToken, getItem,
      setItem.
    split; [done|]. split.
    { by rewrite !lookup_insert_ne, lookup_insert_eq by done. }
    split.
    { by rewrite lookup_insert_ne, lookup_insert_eq by done. }
    split; [by rewrite lookup_insert_eq|]. split.
    { intros k Hk. apply credential_key_false in Hk as (Ha & Hr & Hu).
      by rewrite !lookup_insert_ne by congruence. }
    intros a u parsed Ha Hu Hne Hp.
    unfold AuthService.isAuthenticated, AuthService.getLocalUser, getItem.
    rewrite lookup_insert_eq.
    rewrite !lookup_insert_ne, lookup_insert_eq by done.
    rewrite Hu, Ha in *. simpl in *.
    assert (negb (String.eqb u "") = true) as Hu'.
    { apply negb_true_iff, String.eqb_neq. done. }
    rewrite Hu', Hacc, Hp. done.
Qed.

Lemma login_stores_the_credentials_of_the_response_witness :
  AuthService.getAccessToken
    (AuthService.login_resume (λ _, JStr "{}")
       (Fulfilled (JObj [("access", JStr "a1"); ("refresh", JStr "r1");
                         ("user", JObj [])]))
       ∅).2
  = JStr "a1".
Proof.
  refine (proj1 (proj2 (proj2 (login_stores_the_credentials_of_the_response
                   (λ _, JStr "{}") (λ _, Some (JObj []))
                   (Fulfilled (JObj [("access", JStr "a1");
                                     ("refresh", JStr "r1");
                                     ("user", JObj [])])) ∅) _ eq_refl _)));
    reflexivity.
Defined.

(** X14: [logout] always logs out locally. Whether the server accepts the
    call, rejects it, or is not called at all, [logout] resolves, the
    access token, the refresh token and the user snapshot are gone from
    storage, the client is no longer authenticated, and listeners notified
    afterwards are told [false] and [null]; the other keys are not
    touched. The server is told exactly when a non-empty refresh token is
    stored, and it is sent that token. *)
Theorem logout_always_clears_the_credentials
    (JSON_parse : string → option JsVal) (ls ls1 : Storage)
    (posted : Settled) :
  logout_result (AuthService.logout ls posted ls1) = Fulfilled JUndefined
  ∧ logout_storage (AuthService.logout ls posted ls1)
      !! storageKeys.accessToken = None
  ∧ logout_storage (AuthService.logout ls posted ls1)
      !! storageKeys.refreshToken = None
  ∧ logout_storage (AuthService.logout ls posted ls1)
      !! storageKeys.user = None
  ∧ AuthService.isAuthenticated
      (logout_storage (AuthService.logout ls posted ls1)) = false
  ∧ (∀ listeners,
     AuthStateManager.calls
       (AuthStateManager.notifyStateChange JSON_parse listeners
          (logout_storage (AuthService.logout ls posted ls1)))
     = map (λ _, (false, JNull)) listeners)
  ∧ (∀ k, credential_key k = false →
     logout_storage (AuthService.logout ls posted ls1) !! k
     = (if truthy (AuthService.getRefreshToken ls) then ls1 else ls) !! k)
  ∧ (∀ token, ls !! storageKeys.refreshToken = Some token → token ≠ "" →
     logout_posted (AuthService.logout ls posted ls1) = Some token)
  ∧ (truthy (AuthService.getRefreshToken ls) = false →
     logout_posted (AuthService.logout ls posted ls1) = None).
Proof.
  assert (∃ ls0, logout_storage (AuthService.logout ls posted ls1)
                 = AuthService.clearLocalStorage ls0
                 ∧ ls0 = if truthy (AuthService.getRefreshToken ls)
                         then ls1 else ls) as (ls0 & Hst & Hls0).
  { unfold AuthService.logout, AuthService.getRefreshToken.
    destruct (truthy _); eauto. }
  destruct (clearLocalStorage_keys ls0) as (Ha & Hr & Hu).
  split; [unfold AuthService.logout; by destruct (truthy _)|].
  rewrite Hst. do 3 (split; [done|]).
  split; [by apply isAuthenticated_without_user|].
  split; [intros listeners; by apply notify_without_user|].
  split; [intros k Hk; rewrite <- Hls0; by apply clearLocalStorage_other|].
  unfold AuthService.logout, AuthService.getRefreshToken, getItem. split.
  - intros token -> Hne. simpl.
    assert (negb (String.eqb token "") = true) as ->; [|done].
    by apply negb_true_iff, String.eqb_neq.
  - by intros ->.
Qed.

Lemma logout_always_clears_the_credentials_witness :
  logout_posted
    (AuthService.logout
       {[ storageKeys.accessToken := "a1"; storageKeys.refreshToken := "r1";
          storageKeys.user := "{}" ]}
       (RejectedWith (JStr "Network Error"))
       {[ storageKeys.accessToken := "a1"; storageKeys.refreshToken := "r1";
          storageKeys.user := "{}" ]})
  = Some "r1".
Proof.
  refine (proj1 (proj2 (proj2 (proj2 (proj2 (proj2 (proj2 (proj2
            (logout_always_clears_the_credentials (λ _, None) _ _ _))))))))
            "r1" _ _); [reflexivity | discriminate].
Defined.

(** X15: no permission without a stored, readable user. [hasPermission]
    answers [false] for every permission and every list when no user
    snapshot is stored, when the stored snapshot does not parse, and
    after [clearLocalStorage]. For a user whose [is_staff] is truthy it
    answers [true] whatever the list, also when the list is empty or
    omitted; for any other user it is membership in the list, and [false]
    when the list is omitted. *)
Theorem hasPermission_needs_a_stored_user
    (JSON_parse : string → option JsVal) (permission : string)
    (userPermissions : option (list string)) (ls : Storage) :
  (ls !! storageKeys.user = None →
   AuthService.hasPermission JSON_parse permission userPermissions ls = false)
  ∧ (∀ stored, ls !! storageKeys.user = Some stored →
     JSON_parse stored = None →
     AuthService.hasPermission JSON_parse permission userPermissions ls
     = false)
  ∧ AuthService.hasPermission JSON_parse permission userPermissions
      (AuthService.clearLocalStorage ls) = false
  ∧ (∀ stored user, ls !! storageKeys.user = Some stored → stored ≠ "" →
     JSON_parse stored = Some user → truthy user = true →
     AuthService.hasPermission JSON_parse permission userPermissions ls
     = if truthy (opt_get user "is_staff") then true
       else match userPermissions with
            | Some permissions => bool_decide (permission ∈ permissions)
            | None => false
            end).
Proof.
  assert (∀ ls' : Storage, ls' !! storageKeys.user = None →
            AuthService.hasPermission JSON_parse permission userPermissions ls'
            = false) as Hnone.
  { intros ls' Hu.
    unfold AuthService.hasPermission, AuthService.getLocalUser, getItem.
    by rewrite Hu. }
  split; [apply Hnone|]. split; [|split].
  - intros stored Hs Hp.
    unfold AuthService.hasPermission, AuthService.getLocalUser, getItem.
    rewrite Hs. simpl. destruct (negb (String.eqb stored "")); [|done].
    by rewrite Hp.
  - apply Hnone, clearLocalStorage_keys.
  - intros stored user Hs Hne Hp Ht.
    unfold AuthService.hasPermission, AuthService.getLocalUser, getItem.
    rewrite Hs. simpl.
    assert (negb (String.eqb stored "") = true) as ->
      by by apply negb_true_iff, String.eqb_neq.
    by rewrite Hp, Ht.
Qed.

Lemma hasPermission_needs_a_stored_user_witness :
  AuthService.hasPermission (λ _, Some (JObj [("is_staff", JBool true)]))
    "documents.delete" None
    {[ storageKeys.user := "{}" ]}
  = if truthy (opt_get (JObj [("is_staff", JBool true)]) "is_staff") then true
    else false.
Proof.
  refine (proj2 (proj2 (proj2 (hasPermission_needs_a_stored_user
            (λ _, Some (JObj [("is_staff", JBool true)]))
            "documents.delete" None {[ storageKeys.user := "{}" ]})))
            "{}" (JObj [("is_staff", JBool true)]) _ _ _ _);
    [reflexivity | discriminate | reflexivity | reflexivity].
Defined.

(** ** [AuthStateManager], continued *)

Section listener_facts.

Context {A : Type} `{EqDecision A}.

Lemma indexOf_from_absent (x : A) (l : list A) : ∀ from,
  x ∉ l → AuthStateManager.indexOf_from from x l = (-1)%Z.
Proof.
  induction l as [|y l IH]; intros from Hx; simpl; [done|].
  apply not_elem_of_cons in Hx as [Hne Hx].
  destruct (decide (y = x)); [congruence | by apply IH].
Qed.

Lemma indexOf_from_first (x : A) (l1 l2 : list A) : ∀ from,
  x ∉ l1 →
  AuthStateManager.indexOf_from from x (l1 ++ x :: l2)
  = Z.of_nat (from + length l1).
Proof.
  induction l1 as [|y l1 IH]; intros from Hx; simpl.
  - destruct (decide (x = x)); [f_equal; lia | done].
  - apply not_elem_of_cons in Hx as [Hne Hx].
    destruct (decide (y = x)); [congruence|].
    rewrite IH by done. f_equal. lia.
Qed.

Lemma removeListener_absent (x : A) (l : list A) :
  x ∉ l → AuthStateManager.removeListener x l = l.
Proof.
  intros Hx. unfold AuthStateManager.removeListener, AuthStateManager.indexOf.
  by rewrite indexOf_from_absent.
Qed.

Lemma removeListener_first (x : A) (l1 l2 : list A) :
  x ∉ l1 → AuthStateManager.removeListener x (l1 ++ x :: l2) = l1 ++ l2.
Proof.
  intros Hx. unfold AuthStateManager.removeListener, AuthStateManager.indexOf.
  rewrite indexOf_from_first by done. simpl.
  destruct (Z.gtb_spec (Z.of_nat (length l1)) (-1)); [|lia].
  rewrite Nat2Z.id.
  induction l1 as [|y l1 IH]; simpl; [done|].
  apply not_elem_of_cons in Hx as [_ Hx]. f_equal. apply IH; [done|lia].
Qed.

End listener_facts.

(** X16: [removeListener] removes one registration, the first. Removing a
    callback that is not registered changes nothing; otherwise the first
    occurrence of the callback is taken out and every other entry, later
    registrations of the same callback included, stays in place and in
    order. So adding a callback that was not registered and removing it
    again restores the list, while a callback added twice is still
    registered after one removal. *)
Theorem removeListener_removes_the_first_registration {A : Type}
    `{EqDecision A} (listener : A) (listeners : list A) :
  (listener ∉ listeners →
   AuthStateManager.removeListener listener listeners = listeners)
  ∧ (∀ before after,
     listeners = before ++ listener :: after → listener ∉ before →
     AuthStateManager.removeListener listener listeners = before ++ after)
  ∧ (listener ∉ listeners →
     AuthStateManager.removeListener listener
       (AuthStateManager.addListener listener listeners) = listeners)
  ∧ (listener ∉ listeners →
     AuthStateManager.removeListener listener
       (AuthStateManager.addListener listener
          (AuthStateManager.addListener listener listeners))
     = AuthStateManager.addListener listener listeners).
Proof.
  split; [apply removeListener_absent|]. split; [|split].
  - intros before after -> Hb. by apply removeListener_first.
  - intros Hx. unfold AuthStateManager.addListener.
    rewrite removeListener_first by done. apply app_nil_r.
  - intros Hx. unfold AuthStateManager.addListener.
    rewrite <- app_assoc. simpl. by rewrite removeListener_first.
Qed.

Lemma removeListener_removes_the_first_registration_witness :
  AuthStateManager.removeListener 7 [3; 7; 5; 7] = [3] ++ [5; 7].
Proof.
  refine (proj1 (proj2 (removeListener_removes_the_first_registration
                          7 [3; 7; 5; 7])) [3] [5; 7] eq_refl _).
  apply (bool_decide_unpack (7 ∉ [3])). vm_compute. exact I.
Defined.

Lemma forEach_from_unchanged {A : Type}
    (call : A → bool → JsVal → list A → list A * bool)
    (isAuthenticated : bool) (user : JsVal) (listeners : list A) :
  (∀ listener, listener ∈ listeners →
     (call listener isAuthenticated user listeners).1 = listeners) →
  ∀ n k, k + n = length listeners →
    AuthStateManager.forEach_from call n k listeners isAuthenticated user
    = AuthStateManager.mkNotified (drop k listeners)
        (length (List.filter
                   (λ l, (call l isAuthenticated user listeners).2)
                   (drop k listeners)))
        listeners.
Proof.
  intros Hsame. induction n as [|n IH]; intros k Hk; simpl.
  - rewrite drop_ge by lia. done.
  - destruct (lookup_lt_is_Some_2 listeners k ltac:(lia)) as [l Hl].
    rewrite Hl. rewrite (drop_S _ _ _ Hl).
    pose proof (Hsame l (list_elem_of_lookup_2 _ _ _ Hl)) as Hs.
    destruct (call l isAuthenticated user listeners) as [listeners' threw]
      eqn:Hc.
    simpl in Hs. subst listeners'. rewrite IH by lia. simpl. rewrite Hc.
    by destruct threw.
Qed.

(** X17: a listener that throws does not keep the others from being
    notified. When no listener changes the registrations while it is
    being notified, [notifyStateChange] calls every registered listener,
    once each and in the order of registration, all with the same pair
    (the authentication state and the stored user, read once before the
    first call), however many of them throw; each exception is caught,
    one per throwing listener, and the registrations are as before. *)
Theorem notifyStateChange_reaches_every_listener {A : Type}
    (call : A → bool → JsVal → list A → list A * bool)
    (JSON_parse : string → option JsVal) (listeners : list A)
    (ls : Storage) :
  (∀ listener, listener ∈ listeners →
     (call listener (AuthService.isAuthenticated ls)
        (AuthService.getLocalUser JSON_parse ls) listeners).1 = listeners) →
  AuthStateManager.called
    (AuthStateManager.notifyStateChange_of call JSON_parse listeners ls)
  = listeners
  ∧ AuthStateManager.thrown
      (AuthStateManager.notifyStateChange_of call JSON_parse listeners ls)
    = length (List.filter
                (λ l, (call l (AuthService.isAuthenticated ls)
                         (AuthService.getLocalUser JSON_parse ls)
                         listeners).2)
                listeners)
  ∧ AuthStateManager.registered
      (AuthStateManager.notifyStateChange_of call JSON_parse listeners ls)
    = listeners.
Proof.
  intros Hsame. unfold AuthStateManager.notifyStateChange_of.
  by rewrite (forEach_from_unchanged call _ _ listeners Hsame) by done.
Qed.

Lemma notifyStateChange_reaches_every_listener_witness :
  AuthStateManager.called
    (AuthStateManager.notifyStateChange_of
       (λ (listener : nat) (_ : bool) (_ : JsVal) (registered : list nat),
          (registered, Nat.eqb listener 7))
       (λ _, None) [3; 7; 5] ∅)
  = [3; 7; 5].
Proof.
  refine (proj1 (notifyStateChange_reaches_every_listener
                   (λ (listener : nat) (_ : bool) (_ : JsVal)
                      (registered : list nat),
                      (registered, Nat.eqb listener 7))
                   (λ _, None) [3; 7; 5] ∅ _)).
  intros listener _. reflexivity.
Defined.

(** A listener that unregisters itself while it is notified shifts the
    array under [forEach]: the listener registered after it is not
    called in that notification. *)
Example listener_removed_during_notification :
  AuthStateManager.notifyStateChange_of
    (λ (listener : nat) (_ : bool) (_ : JsVal) (registered : list nat),
       (if Nat.eqb listener 3
        then AuthStateManager.removeListener 3 registered
        else registered, false))
    (λ _, None) [3; 7; 5] ∅
  = AuthStateManager.mkNotified [3; 5] 0 [7; 5].
Proof. reflexivity. Qed.

(** ** [useAuth] *)

(** X18: [initializeAuth] reports a user only when the server confirms it.
    The hook always ends with [isLoading = false]. It asks the server for
    the current user exactly when a token and a readable user snapshot
    are stored; it ends authenticated only if that call succeeded, with
    the user the server returned; if the call failed, the access token,
    the refresh token and the user snapshot are removed from storage (the
    other keys are kept) and the hook ends unauthenticated with no user;
    if the call was not made, the storage is left as it was. *)
Theorem initializeAuth_trusts_only_the_server
    (JSON_parse : string → option JsVal) (ls ls1 : Storage)
    (current : Settled) :
  view_isLoading (useAuth.initializeAuth JSON_parse ls current ls1).1.1
  = false
  ∧ ((useAuth.initializeAuth JSON_parse ls current ls1).1.2
     = AuthService.isAuthenticated ls
       && truthy (AuthService.getLocalUser JSON_parse ls))
  ∧ (view_isAuthenticated
       (useAuth.initializeAuth JSON_parse ls current ls1).1.1 = true →
     ∃ currentUser,
       current = Fulfilled currentUser
       ∧ useAuth.initializeAuth JSON_parse ls current ls1
         = (mkAuthView currentUser true false, true, ls1))
  ∧ ((useAuth.initializeAuth JSON_parse ls current ls1).1.2 = true →
     is_rejected current = true →
     (useAuth.initializeAuth JSON_parse ls current ls1).1.1
     = mkAuthView JNull false false
     ∧ AuthService.isAuthenticated
         (useAuth.initializeAuth JSON_parse ls current ls1).2 = false
     ∧ (useAuth.initializeAuth JSON_parse ls current ls1).2
         !! storageKeys.accessToken = None
     ∧ (useAuth.initializeAuth JSON_parse ls current ls1).2
         !! storageKeys.refreshToken = None
     ∧ (useAuth.initializeAuth JSON_parse ls current ls1).2
         !! storageKeys.user = None
     ∧ ∀ k, credential_key k = false →
         (useAuth.initializeAuth JSON_parse ls current ls1).2 !! k
         = ls1 !! k)
  ∧ ((useAuth.initializeAuth JSON_parse ls current ls1).1.2 = false →
     useAuth.initializeAuth JSON_parse ls current ls1
     = (mkAuthView JNull false false, false, ls)).
Proof.
  unfold useAuth.initializeAuth.
  destruct (AuthService.isAuthenticated ls
            && truthy (AuthService.getLocalUser JSON_parse ls));
    destruct current as [u|e]; simpl; repeat split; try done; eauto.
  - apply isAuthenticated_without_user, clearLocalStorage_keys.
  - apply clearLocalStorage_keys.
  - apply clearLocalStorage_keys.
  - apply clearLocalStorage_keys.
  - intros k Hk. by apply clearLocalStorage_other.
Qed.

Lemma initializeAuth_trusts_only_the_server_witness :
  (useAuth.initializeAuth (λ _, Some (JObj [("id", JNum 1)]))
     {[ storageKeys.accessToken := "a1"; storageKeys.refreshToken := "r1";
        storageKeys.user := "{}" ]}
     (RejectedWith (JStr "Network Error"))
     {[ storageKeys.accessToken := "a1"; storageKeys.refreshToken := "r1";
        storageKeys.user := "{}" ]}).1.1
  = mkAuthView JNull false false.
Proof.
  refine (proj1 (proj1 (proj2 (proj2 (proj2
            (initializeAuth_trusts_only_the_server
               (λ _, Some (JObj [("id", JNum 1)])) _ _ _)))) _ _));
    reflexivity.
Defined.
